(** * flutter_p2p_connection, Windows shim: embedding and verification

    Shallow embedding of [windows/utils.h], [windows/constants.h] and
    [windows/flutter_p2p_connection_plugin.cpp].

    - [std::string] is [string]; at the Win32 boundary ([&str[0]]) it is
      viewed as its bytes, a [list Z] with every element in [0, 255].
    - [std::wstring] is a [list Z] of UTF-16 code units ([wchar_t] is 16 bits
      wide on Windows).
    - [int], [DWORD] and [NTSTATUS] are [Z]; the one narrowing conversion the
      source performs, [(int)str.size()], is [to_int], with its wrap-around
      written out.
    - Calls that leave the plugin (apartment initialisation, the version
      query, the two Win32 conversion routines) are effects: they run in
      the state monad [M] over [World], which holds what the OS reports as
      its version, the process-global C++ locale, the count of outstanding
      apartment initialisations and the record of the calls made, in
      order.
    - A [flutter::MethodResult] is the list of replies given through it;
      a handler takes the result object and returns it with its replies
      added.

    [utils::guid_from_string] only hands the result of [string_to_wstring]
    to the [winrt::guid] constructor and is not embedded. *)

From Stdlib Require Import ZArith List String Ascii Lia Bool.
From stdpp Require Import gmap strings.
Import ListNotations.
Local Open Scope Z_scope.

(* ------------------------------------------------------------------ *)
(** ** Machine integers *)

Definition INT_MAX : Z := 2147483647.
Definition DWORD_MAX : Z := 4294967295.

(** [(int)x] for an unsigned [x]: reduction modulo 2^32 into
    [-2^31, 2^31). *)
Definition to_int (x : Z) : Z := (x + 2147483648) mod 4294967296 - 2147483648.

(* ------------------------------------------------------------------ *)
(** ** Strings *)

Definition wchar_t := Z.
Definition wstring := list wchar_t.

Definition byte_of_char (c : ascii) : Z := Z.of_N (N_of_ascii c).
Definition char_of_byte (b : Z) : ascii := ascii_of_N (Z.to_N b).

(** The bytes of a [std::string], as [&str[0]] exposes them. *)
Definition bytes_of_string (s : string) : list Z :=
  List.map byte_of_char (list_ascii_of_string s).
Definition string_of_bytes (l : list Z) : string :=
  string_of_list_ascii (List.map char_of_byte l).

(** [str.size()] and [wstr.size()]. *)
Definition str_size (s : string) : Z := Z.of_nat (String.length s).
Definition wstr_size (w : wstring) : Z := Z.of_nat (List.length w).

(** [str.empty()] and [wstr.empty()]. *)
Definition str_empty (s : string) : bool :=
  match s with EmptyString => true | String _ _ => false end.
Definition wstr_empty (w : wstring) : bool :=
  match w with [] => true | _ :: _ => false end.

(** [std::string(n, 0)] and [std::wstring(n, 0)]: [n] zero characters. *)
Definition string_fill (n : Z) : string :=
  string_of_list_ascii (repeat zero (Z.to_nat n)).
Definition wstring_fill (n : Z) : wstring := repeat 0 (Z.to_nat n).

(** A wide literal [L"..."] with ASCII content. *)
Definition L (s : string) : wstring := bytes_of_string s.

(* ------------------------------------------------------------------ *)
(** ** UTF-8 and UTF-16

    [MultiByteToWideChar] and [WideCharToMultiByte] belong to Win32, not to
    the repository.  The source calls them with [CP_UTF8] and no flags; the
    documented behaviour then is that well-formed input is transcoded and
    that an ill-formed sequence (UTF-8) or an unpaired surrogate (UTF-16)
    becomes U+FFFD.  The codec below is that behaviour on scalar values.
    How many U+FFFD an ill-formed run produces is not relied upon. *)

Definition REPLACEMENT : Z := 65533.

(** A Unicode scalar value: a code point that is not a surrogate. *)
Definition is_scalar (c : Z) : bool :=
  ((0 <=? c) && (c <? 55296)) || ((57344 <=? c) && (c <? 1114112)).

Definition utf8_encode1 (c : Z) : list Z :=
  if c <? 128 then [c]
  else if c <? 2048 then [192 + c / 64; 128 + c mod 64]
  else if c <? 65536 then
    [224 + c / 4096; 128 + (c / 64) mod 64; 128 + c mod 64]
  else
    [240 + c / 262144; 128 + (c / 4096) mod 64;
     128 + (c / 64) mod 64; 128 + c mod 64].

Definition utf8_encode (cs : list Z) : list Z := flat_map utf8_encode1 cs.

Definition in_range (lo hi b : Z) : bool := (lo <=? b) && (b <=? hi).

(** Well-formed UTF-8 byte sequences (Unicode, table 3-7), by length. *)
Definition wf1 (b0 : Z) : bool := in_range 0 127 b0.
Definition wf2 (b0 b1 : Z) : bool := in_range 194 223 b0 && in_range 128 191 b1.
Definition wf3 (b0 b1 b2 : Z) : bool :=
  ((b0 =? 224) && in_range 160 191 b1 && in_range 128 191 b2)
  || (in_range 225 236 b0 && in_range 128 191 b1 && in_range 128 191 b2)
  || ((b0 =? 237) && in_range 128 159 b1 && in_range 128 191 b2)
  || (in_range 238 239 b0 && in_range 128 191 b1 && in_range 128 191 b2).
Definition wf4 (b0 b1 b2 b3 : Z) : bool :=
  ((b0 =? 240) && in_range 144 191 b1
     && in_range 128 191 b2 && in_range 128 191 b3)
  || (in_range 241 243 b0 && in_range 128 191 b1
     && in_range 128 191 b2 && in_range 128 191 b3)
  || ((b0 =? 244) && in_range 128 143 b1
     && in_range 128 191 b2 && in_range 128 191 b3).

Definition cp2 (b0 b1 : Z) : Z := (b0 - 192) * 64 + (b1 - 128).
Definition cp3 (b0 b1 b2 : Z) : Z :=
  (b0 - 224) * 4096 + (b1 - 128) * 64 + (b2 - 128).
Definition cp4 (b0 b1 b2 b3 : Z) : Z :=
  (b0 - 240) * 262144 + (b1 - 128) * 4096 + (b2 - 128) * 64 + (b3 - 128).

(** Decoding with replacement: a byte that starts no well-formed sequence
    yields U+FFFD and decoding resumes at the next byte. *)
Fixpoint utf8_decode (l : list Z) : list Z :=
  match l with
  | [] => []
  | b0 :: l1 =>
    if wf1 b0 then b0 :: utf8_decode l1 else
    match l1 with
    | b1 :: l2 =>
      if wf2 b0 b1 then cp2 b0 b1 :: utf8_decode l2 else
      match l2 with
      | b2 :: l3 =>
        if wf3 b0 b1 b2 then cp3 b0 b1 b2 :: utf8_decode l3 else
        match l3 with
        | b3 :: l4 =>
          if wf4 b0 b1 b2 b3 then cp4 b0 b1 b2 b3 :: utf8_decode l4
          else REPLACEMENT :: utf8_decode l1
        | [] => REPLACEMENT :: utf8_decode l1
        end
      | [] => REPLACEMENT :: utf8_decode l1
      end
    | [] => [REPLACEMENT]
    end
  end.

(** Validity: the byte string is a concatenation of well-formed sequences. *)
Fixpoint valid_utf8_bytes (l : list Z) : bool :=
  match l with
  | [] => true
  | b0 :: l1 =>
    if wf1 b0 then valid_utf8_bytes l1 else
    match l1 with
    | b1 :: l2 =>
      if wf2 b0 b1 then valid_utf8_bytes l2 else
      match l2 with
      | b2 :: l3 =>
        if wf3 b0 b1 b2 then valid_utf8_bytes l3 else
        match l3 with
        | b3 :: l4 => wf4 b0 b1 b2 b3 && valid_utf8_bytes l4
        | [] => false
        end
      | [] => false
      end
    | [] => false
    end
  end.

Definition valid_utf8 (s : string) : bool :=
  valid_utf8_bytes (bytes_of_string s).

Definition utf16_encode1 (c : Z) : list Z :=
  if c <? 65536 then [c]
  else [55296 + (c - 65536) / 1024; 56320 + (c - 65536) mod 1024].

Definition utf16_encode (cs : list Z) : list Z := flat_map utf16_encode1 cs.

Definition is_high (u : Z) : bool := in_range 55296 56319 u.
Definition is_low (u : Z) : bool := in_range 56320 57343 u.

Definition cp_pair (hi lo : Z) : Z :=
  65536 + (hi - 55296) * 1024 + (lo - 56320).

(** Decoding with replacement: an unpaired surrogate yields U+FFFD. *)
Fixpoint utf16_decode (l : list Z) : list Z :=
  match l with
  | [] => []
  | u :: l1 =>
    if is_high u then
      match l1 with
      | v :: l2 =>
        if is_low v then cp_pair u v :: utf16_decode l2
        else REPLACEMENT :: utf16_decode l1
      | [] => [REPLACEMENT]
      end
    else if is_low u then REPLACEMENT :: utf16_decode l1
    else u :: utf16_decode l1
  end.

(* ------------------------------------------------------------------ *)
(** ** The world outside the plugin *)

(** The fields of [OSVERSIONINFOEXW] up to the platform id; the service
    pack fields that follow are never read. *)
Record OSVERSIONINFOEXW := {
  dwOSVersionInfoSize : Z;
  dwMajorVersion : Z;
  dwMinorVersion : Z;
  dwBuildNumber : Z;
  dwPlatformId : Z
}.

Definition sizeof_OSVERSIONINFOEXW : Z := 284.

(** Calls that leave the plugin, in the order they are made. *)
Inductive OsCall :=
| call_init_apartment
| call_uninit_apartment
| call_RtlGetVersion
| call_MultiByteToWideChar
| call_WideCharToMultiByte.

Definition CHAR_MAX : Z := 127.

(** What a [std::locale] says about writing integers, its
    [std::numpunct<wchar_t>] facet: the separator put between groups of
    digits, and the sizes of the groups, counted from the right, the last
    size repeating; a size that is not positive or is [CHAR_MAX] ends the
    grouping. *)
Record Locale := {
  thousands_sep : Z;
  grouping : list Z
}.

(** [std::locale::classic()]: no grouping. *)
Definition classic : Locale := {| thousands_sep := 44; grouping := [] |}.

Record World := {
  (** the status [RtlGetVersion] answers with, and the version it reports *)
  version_status : Z;
  version_info : OSVERSIONINFOEXW;
  (** the process-global C++ locale, which a new stream takes *)
  global_locale : Locale;
  (** outstanding apartment initialisations of the calling thread *)
  apartment : Z;
  os_calls : list OsCall
}.

Definition M (A : Type) : Type := World -> A * World.

Definition ret {A} (a : A) : M A := fun w => (a, w).
Definition bind {A B} (m : M A) (k : A -> M B) : M B :=
  fun w => let (a, w') := m w in k a w'.

Declare Scope m_scope.
Delimit Scope m_scope with m.
Notation "'let*' x := m 'in' k" := (bind m (fun x => k))
  (at level 10, x name, m at level 100, k at level 200) : m_scope.
Notation "'let*' ' pat := m 'in' k" :=
  (bind m (fun x => match x with pat => k end))
  (at level 10, pat pattern, m at level 100, k at level 200) : m_scope.
Local Open Scope m_scope.

Definition record_call (c : OsCall) (w : World) : World :=
  {| version_status := version_status w;
     version_info := version_info w;
     global_locale := global_locale w;
     apartment := apartment w;
     os_calls := os_calls w ++ [c] |}.

Definition set_apartment (n : Z) (w : World) : World :=
  {| version_status := version_status w;
     version_info := version_info w;
     global_locale := global_locale w;
     apartment := n;
     os_calls := os_calls w |}.

(** [winrt::init_apartment()] and [winrt::uninit_apartment()], where the
    initialisation is granted: one more, one fewer outstanding
    initialisation. *)
Definition init_apartment : M unit :=
  fun w => (tt, record_call call_init_apartment
                  (set_apartment (apartment w + 1) w)).
Definition uninit_apartment : M unit :=
  fun w => (tt, record_call call_uninit_apartment
                  (set_apartment (apartment w - 1) w)).

(** [RtlGetVersion(&os_info)]: the status, and the record as the call
    leaves it. *)
Definition RtlGetVersion (os_info : OSVERSIONINFOEXW)
  : M (Z * OSVERSIONINFOEXW) :=
  fun w =>
    (if version_status w =? 0
     then (0, {| dwOSVersionInfoSize := dwOSVersionInfoSize os_info;
                 dwMajorVersion := dwMajorVersion (version_info w);
                 dwMinorVersion := dwMinorVersion (version_info w);
                 dwBuildNumber := dwBuildNumber (version_info w);
                 dwPlatformId := dwPlatformId (version_info w) |})
     else (version_status w, os_info),
     record_call call_RtlGetVersion w).

Definition CP_UTF8 : Z := 65001.

(** A null buffer pointer. *)
Definition NULL : list Z := [].

(** The source characters a conversion reads, given the characters behind
    the pointer and the count argument.  Win32 documents: with a count of 0
    the function fails; with -1 the input is read up to its terminating
    null, terminator included (a string's buffer is followed by one);
    otherwise that many characters are read.  Other negative counts are
    taken like -1. *)
Fixpoint through_nul (l : list Z) : list Z :=
  match l with
  | [] => [0]
  | x :: r => if x =? 0 then [0] else x :: through_nul r
  end.

Definition source_chars (buf : list Z) (count : Z) : option (list Z) :=
  if count =? 0 then None
  else if count <? 0 then Some (through_nul buf)
  else Some (firstn (Z.to_nat count) buf).

(** What a conversion returns for the converted text [out]: with a
    capacity of 0 the required size and an untouched buffer; with a buffer
    that is large enough the text written at its start and the number of
    characters written; 0 otherwise (also when the size does not fit the
    [int] result). *)
Definition deliver (out dst : list Z) (capacity : Z) : Z * list Z :=
  let n := Z.of_nat (List.length out) in
  if INT_MAX <? n then (0, dst)
  else if capacity =? 0 then (n, dst)
  else if n <=? capacity then (n, out ++ skipn (List.length out) dst)
  else (0, dst).

(** What [MultiByteToWideChar] answers: its return value and the wide
    buffer as it leaves it. *)
Definition MultiByteToWideChar_answer (CodePage dwFlags : Z)
    (lpMultiByteStr : list Z) (cbMultiByte : Z)
    (lpWideCharStr : list Z) (cchWideChar : Z) : Z * list Z :=
  if (CodePage =? CP_UTF8) && (dwFlags =? 0) then
    match source_chars lpMultiByteStr cbMultiByte with
    | None => (0, lpWideCharStr)
    | Some src =>
      deliver (utf16_encode (utf8_decode src)) lpWideCharStr cchWideChar
    end
  else (0, lpWideCharStr).

Definition MultiByteToWideChar (CodePage dwFlags : Z)
    (lpMultiByteStr : list Z) (cbMultiByte : Z)
    (lpWideCharStr : list Z) (cchWideChar : Z) : M (Z * list Z) :=
  fun w =>
    (MultiByteToWideChar_answer CodePage dwFlags lpMultiByteStr cbMultiByte
       lpWideCharStr cchWideChar,
     record_call call_MultiByteToWideChar w).

(** What [WideCharToMultiByte] answers: its return value and the byte
    buffer as it leaves it.  With [CP_UTF8] the two default-character
    pointers have to be null, as the source passes them, and play no
    part. *)
Definition WideCharToMultiByte_answer (CodePage dwFlags : Z)
    (lpWideCharStr : list Z) (cchWideChar : Z)
    (lpMultiByteStr : list Z) (cbMultiByte : Z)
    (lpDefaultChar lpUsedDefaultChar : list Z) : Z * list Z :=
  if (CodePage =? CP_UTF8) && (dwFlags =? 0) then
    match source_chars lpWideCharStr cchWideChar with
    | None => (0, lpMultiByteStr)
    | Some src =>
      deliver (utf8_encode (utf16_decode src)) lpMultiByteStr cbMultiByte
    end
  else (0, lpMultiByteStr).

Definition WideCharToMultiByte (CodePage dwFlags : Z)
    (lpWideCharStr : list Z) (cchWideChar : Z)
    (lpMultiByteStr : list Z) (cbMultiByte : Z)
    (lpDefaultChar lpUsedDefaultChar : list Z) : M (Z * list Z) :=
  fun w =>
    (WideCharToMultiByte_answer CodePage dwFlags lpWideCharStr cchWideChar
       lpMultiByteStr cbMultiByte lpDefaultChar lpUsedDefaultChar,
     record_call call_WideCharToMultiByte w).

(* ------------------------------------------------------------------ *)
(** ** utils.h *)

Module utils.

(** Converts a UTF-8 string to a UTF-16 wstring. *)
Definition string_to_wstring (str : string) : M wstring :=
  if str_empty str then ret [] else
  let* '(size_needed, _) :=
    MultiByteToWideChar CP_UTF8 0 (bytes_of_string str)
      (to_int (str_size str)) NULL 0 in
  let wstrTo := wstring_fill size_needed in
  let* '(_, wstrTo) :=
    MultiByteToWideChar CP_UTF8 0 (bytes_of_string str)
      (to_int (str_size str)) wstrTo size_needed in
  ret wstrTo.

(** Converts a UTF-16 wstring to a UTF-8 string. *)
Definition wstring_to_string (wstr : wstring) : M string :=
  if wstr_empty wstr then ret EmptyString else
  let* '(size_needed, _) :=
    WideCharToMultiByte CP_UTF8 0 wstr (to_int (wstr_size wstr)) NULL 0
      NULL NULL in
  let strTo := string_fill size_needed in
  let* '(_, strTo) :=
    WideCharToMultiByte CP_UTF8 0 wstr (to_int (wstr_size wstr))
      (bytes_of_string strTo) size_needed NULL NULL in
  ret (string_of_bytes strTo).

Section Guid.

(** [winrt::guid] and its constructor from a wide string belong to
    C++/WinRT: the constructor yields a guid, or throws ([None]). *)
Variable guid : Type.
Variable guid_of_wstring : wstring -> option guid.

Definition guid_from_string (guid_str : string) : M (option guid) :=
  let* w := string_to_wstring guid_str in
  ret (guid_of_wstring w).

End Guid.

End utils.

(* ------------------------------------------------------------------ *)
(** ** constants.h *)

Module Constants.
Definition TAG : string := "FlutterP2pConnection".
Definition METHOD_CHANNEL_NAME : string := "flutter_p2p_connection".
Definition CLIENT_STATE_EVENT_CHANNEL_NAME : string :=
  "flutter_p2p_connection_clientState".
Definition HOTSPOT_STATE_EVENT_CHANNEL_NAME : string :=
  "flutter_p2p_connection_hotspotState".
Definition BLE_SCAN_RESULT_EVENT_CHANNEL_NAME : string :=
  "flutter_p2p_connection_bleScanResult".
Definition BLE_CONNECTION_STATE_EVENT_CHANNEL_NAME : string :=
  "flutter_p2p_connection_bleConnectionState".
Definition BLE_RECEIVED_DATA_EVENT_CHANNEL_NAME : string :=
  "flutter_p2p_connection_bleReceivedData".
Definition BLE_CREDENTIAL_SERVICE_UUID : string :=
  "0f0540bd-4a04-46d0-b90d-b0447453ec3a".
Definition BLE_SSID_CHARACTERISTIC_UUID : string :=
  "7a374008-fc31-4476-be4d-1b3347233f00".
Definition BLE_PSK_CHARACTERISTIC_UUID : string :=
  "81a5ec62-a8b1-48b0-b533-938636a57ba4".
End Constants.

(* ------------------------------------------------------------------ *)
(** ** The host framework's types, as the plugin uses them *)

(** [flutter::EncodableValue], without its floating-point alternatives. *)
#[local] Set Warnings "-register-all".
Inductive EncodableValue :=
| EncodableNull
| EncodableBool (b : bool)
| EncodableInt32 (n : Z)
| EncodableInt64 (n : Z)
| EncodableString (s : string)
| EncodableBytes (l : list Z)
| EncodableList (l : list EncodableValue)
| EncodableMap (l : list (EncodableValue * EncodableValue)).

Record MethodCall := {
  method_name : string;
  arguments : EncodableValue
}.

(** What a handler can answer through its [flutter::MethodResult]. *)
Inductive Reply :=
| Success (value : EncodableValue)
| Error (error_code error_message : string)
| NotImplemented.

(** A result object is the sequence of answers given through it so far. *)
Definition MethodResult := list Reply.

Definition result_Success (result : MethodResult) (v : EncodableValue)
  : MethodResult := result ++ [Success v].
Definition result_Error (result : MethodResult) (code message : string)
  : MethodResult := result ++ [Error code message].
Definition result_NotImplemented (result : MethodResult) : MethodResult :=
  result ++ [NotImplemented].

Definition MethodCallHandler : Type :=
  MethodCall -> MethodResult -> M MethodResult.

(** The plugin object: its one member is the registrar pointer. *)
Record FlutterP2pConnectionPlugin := { registrar_ : Z }.

(** A registrar: its address, the messenger's handler table (by channel
    name) and the plugins it owns. *)
Record PluginRegistrarWindows := {
  address : Z;
  messenger : gmap string MethodCallHandler;
  plugins : list FlutterP2pConnectionPlugin
}.

Record MethodChannel := { channel_name : string }.

(** [channel->SetMethodCallHandler(handler)]: the messenger binds the
    channel's name to the handler. *)
Definition SetMethodCallHandler (channel : MethodChannel)
    (handler : MethodCallHandler) (r : PluginRegistrarWindows)
  : PluginRegistrarWindows :=
  {| address := address r;
     messenger := <[channel_name channel := handler]> (messenger r);
     plugins := plugins r |}.

(** [registrar->AddPlugin(std::move(plugin))]. *)
Definition AddPlugin (plugin : FlutterP2pConnectionPlugin)
    (r : PluginRegistrarWindows) : PluginRegistrarWindows :=
  {| address := address r;
     messenger := messenger r;
     plugins := plugins r ++ [plugin] |}.

(* ------------------------------------------------------------------ *)
(** ** Wide output streams *)

(** The decimal digits of [n], most significant first, as characters; at
    most [fuel] of them. *)
Fixpoint put_digits (fuel : nat) (n : Z) (acc : list Z) : list Z :=
  match fuel with
  | O => acc
  | S fuel' =>
    let acc' := (48 + n mod 10) :: acc in
    if n / 10 =? 0 then acc' else put_digits fuel' (n / 10) acc'
  end.

(** The plain decimal digits of a [DWORD], which has at most ten. *)
Definition decimal (n : Z) : list Z := put_digits 10 n [].

(** Separators put into digits that are given least significant first:
    after each full group, as long as digits remain. *)
Fixpoint insert_seps (fuel : nat) (sep : Z) (groups : list Z) (rs : list Z)
  : list Z :=
  match fuel with
  | O => rs
  | S fuel' =>
    match groups with
    | [] => rs
    | g :: groups' =>
      if (g <=? 0) || (CHAR_MAX <=? g) then rs
      else if (List.length rs <=? Z.to_nat g)%nat then rs
      else
        firstn (Z.to_nat g) rs
          ++ sep :: insert_seps fuel' sep
                      (match groups' with [] => groups | _ => groups' end)
                      (skipn (Z.to_nat g) rs)
    end
  end.

(** The digits as [std::num_put] writes them in a locale. *)
Definition group_digits (loc : Locale) (ds : list Z) : list Z :=
  rev (insert_seps (List.length ds) (thousands_sep loc) (grouping loc)
         (rev ds)).

(** A [std::wstringstream]: the locale it was constructed with and its
    buffer. *)
Record wstringstream := {
  getloc : Locale;
  str : wstring
}.

(** [std::wstringstream ss;] takes the global locale. *)
Definition wstringstream_ctor : M wstringstream :=
  fun w => ({| getloc := global_locale w; str := [] |}, w).

(** [ss << L"..."] and [ss << dw] for an [unsigned long]. *)
Definition put_wstr (ss : wstringstream) (w : wstring) : wstringstream :=
  {| getloc := getloc ss; str := str ss ++ w |}.
Definition put_ulong (ss : wstringstream) (n : Z) : wstringstream :=
  {| getloc := getloc ss;
     str := str ss ++ group_digits (getloc ss) (decimal n) |}.

(* ------------------------------------------------------------------ *)
(** ** flutter_p2p_connection_plugin.cpp *)

Module flutter_p2p_connection.

Definition FlutterP2pConnectionPlugin_ctor (registrar : Z)
  : M FlutterP2pConnectionPlugin :=
  let* _ := init_apartment in
  ret {| registrar_ := registrar |}.

Definition FlutterP2pConnectionPlugin_dtor (this : FlutterP2pConnectionPlugin)
  : M unit :=
  uninit_apartment.

Definition HandleMethodCall (this : FlutterP2pConnectionPlugin)
    (method_call : MethodCall) (result : MethodResult) : M MethodResult :=
  let method := method_name method_call in
  if String.eqb method "getPlatformVersion" then
    let os_info :=
      {| dwOSVersionInfoSize := sizeof_OSVERSIONINFOEXW;
         dwMajorVersion := 0; dwMinorVersion := 0;
         dwBuildNumber := 0; dwPlatformId := 0 |} in
    let* '(status, os_info) := RtlGetVersion os_info in
    if status =? 0 then
      let* ss := wstringstream_ctor in
      let ss := put_wstr ss (L "Windows ") in
      let ss := put_ulong ss (dwMajorVersion os_info) in
      let ss := put_wstr ss (L ".") in
      let ss := put_ulong ss (dwMinorVersion os_info) in
      let ss := put_wstr ss (L " Build ") in
      let ss := put_ulong ss (dwBuildNumber os_info) in
      let* s := utils.wstring_to_string (str ss) in
      ret (result_Success result (EncodableString s))
    else
      ret (result_Error result "VERSION_ERROR"
             "Failed to get Windows version.")
  else
    ret (result_NotImplemented result).

Definition RegisterWithRegistrar (registrar : PluginRegistrarWindows)
  : M PluginRegistrarWindows :=
  let* plugin := FlutterP2pConnectionPlugin_ctor (address registrar) in
  let channel := {| channel_name := Constants.METHOD_CHANNEL_NAME |} in
  let registrar :=
    SetMethodCallHandler channel
      (fun call result => HandleMethodCall plugin call result) registrar in
  ret (AddPlugin plugin registrar).

End flutter_p2p_connection.

(* ------------------------------------------------------------------ *)
(** ** Running the plugin *)

(** One dispatch: a fresh result object is handed to the handler, and the
    answers found in it afterwards are returned. *)
Definition dispatch (this : FlutterP2pConnectionPlugin) (call : MethodCall)
  : M MethodResult :=
  flutter_p2p_connection.HandleMethodCall this call [].

Fixpoint dispatch_all (this : FlutterP2pConnectionPlugin)
    (calls : list MethodCall) : M (list MethodResult) :=
  match calls with
  | [] => ret []
  | c :: cs =>
    let* r := dispatch this c in
    let* rs := dispatch_all this cs in
    ret (r :: rs)
  end.

(** A plugin lifetime: construction, the calls delivered to it, then
    destruction. *)
Definition lifetime (registrar : Z) (calls : list MethodCall)
  : M (list MethodResult) :=
  let* plugin := flutter_p2p_connection.FlutterP2pConnectionPlugin_ctor registrar in
  let* rs := dispatch_all plugin calls in
  let* _ := flutter_p2p_connection.FlutterP2pConnectionPlugin_dtor plugin in
  ret rs.

(** A world with a given version query result, the classic locale and
    nothing called yet. *)
Definition world0 (status major minor build : Z) : World :=
  {| version_status := status;
     version_info := {| dwOSVersionInfoSize := sizeof_OSVERSIONINFOEXW;
                        dwMajorVersion := major; dwMinorVersion := minor;
                        dwBuildNumber := build; dwPlatformId := 2 |};
     global_locale := classic;
     apartment := 0;
     os_calls := [] |}.

(** The same world after [std::locale::global(loc)]. *)
Definition with_locale (loc : Locale) (w : World) : World :=
  {| version_status := version_status w;
     version_info := version_info w;
     global_locale := loc;
     apartment := apartment w;
     os_calls := os_calls w |}.

(** A locale that writes 19045 as 19,045. *)
Definition comma_thousands : Locale :=
  {| thousands_sep := 44; grouping := [3] |}.

(** A world whose global locale groups by thousands, Windows 10 build
    19045. *)
Definition grouped_world : World :=
  with_locale comma_thousands (world0 0 10 0 19045).

(** A locale that writes 1234567 as 1.234.567. *)
Definition dot_thousands : Locale :=
  {| thousands_sep := 46; grouping := [3] |}.

Definition getPlatformVersion_call (args : EncodableValue) : MethodCall :=
  {| method_name := "getPlatformVersion"; arguments := args |}.

(** The round trip through both conversion helpers. *)
Definition round_trip (s : string) : M string :=
  let* w := utils.string_to_wstring s in
  utils.wstring_to_string w.

(** A string of 2^32 bytes, each the letter a. *)
Definition four_gib : nat := N.to_nat 4294967296.
Definition long_string (n : nat) : string :=
  string_of_list_ascii (repeat "a"%char n).

(** A short text with sequences of one, two, three and four bytes:
    h, U+00E9, U+20AC, U+1F600. *)
Definition sample_text : string :=
  string_of_bytes [104; 195; 169; 226; 130; 172; 240; 159; 152; 128].

(* ------------------------------------------------------------------ *)
(** ** Vocabulary of the statements *)

Definition is_digit (c : ascii) : bool := in_range 48 57 (byte_of_char c).
Definition is_letter (c : ascii) : bool :=
  in_range 65 90 (byte_of_char c) || in_range 97 122 (byte_of_char c).

Fixpoint all_chars (p : ascii -> bool) (s : string) : bool :=
  match s with
  | EmptyString => true
  | String c r => p c && all_chars p r
  end.

(** [<int>]: a non-empty run of decimal digits; [<word>]: a non-empty run
    of letters. *)
Definition is_int (s : string) : bool :=
  negb (str_empty s) && all_chars is_digit s.
Definition is_word (s : string) : bool :=
  negb (str_empty s) && all_chars is_letter s.

(** The number a run of digits denotes. *)
Fixpoint int_value_from (acc : Z) (s : string) : Z :=
  match s with
  | EmptyString => acc
  | String c r => int_value_from (acc * 10 + (byte_of_char c - 48)) r
  end.
Definition int_value (s : string) : Z := int_value_from 0 s.

(** The number a run of digit characters denotes, continuing from [acc]. *)
Definition digits_value (acc : Z) (l : list Z) : Z :=
  fold_left (fun a d => a * 10 + (d - 48)) l acc.

Definition is_ascii (l : list Z) : bool := forallb (in_range 0 127) l.
Definition are_digits (l : list Z) : bool := forallb (in_range 48 57) l.

(** The stream [HandleMethodCall] has built when it reads it back. *)
Definition version_stream (loc : Locale) (v : OSVERSIONINFOEXW)
  : wstringstream :=
  put_ulong
    (put_wstr
       (put_ulong
          (put_wstr
             (put_ulong (put_wstr {| getloc := loc; str := [] |}
                           (L "Windows "))
                (dwMajorVersion v))
             (L "."))
          (dwMinorVersion v))
       (L " Build "))
    (dwBuildNumber v).

(** Whether a locale puts separators into numbers. *)
Definition groups_digits (loc : Locale) : bool :=
  match grouping loc with
  | [] => false
  | g :: _ => (0 <? g) && (g <? CHAR_MAX)
  end.

(** The three numeric fields are [DWORD]s. *)
Definition DWORD_fields (v : OSVERSIONINFOEXW) : Prop :=
  0 <= dwMajorVersion v <= DWORD_MAX /\
  0 <= dwMinorVersion v <= DWORD_MAX /\
  0 <= dwBuildNumber v <= DWORD_MAX.

Definition OsCall_eq_dec (a b : OsCall) : {a = b} + {a <> b}.
Proof. decide equality. Defined.

Definition count_call (c : OsCall) (l : list OsCall) : nat :=
  count_occ OsCall_eq_dec l c.

(** The calls a run added to the record. *)
Definition new_calls (before after : World) : list OsCall :=
  skipn (List.length (os_calls before)) (os_calls after).

(** The world after further calls. *)
Definition add_calls (cs : list OsCall) (w : World) : World :=
  {| version_status := version_status w;
     version_info := version_info w;
     global_locale := global_locale w;
     apartment := apartment w;
     os_calls := os_calls w ++ cs |}.

(** Calls that neither acquire nor release the apartment. *)
Definition apartment_neutral (c : OsCall) : bool :=
  match c with
  | call_init_apartment | call_uninit_apartment => false
  | _ => true
  end.

(** Two worlds in which the OS reports the same version and the global
    locale is the same. *)
Definition same_env (w1 w2 : World) : Prop :=
  version_status w1 = version_status w2 /\
  version_info w1 = version_info w2 /\
  global_locale w1 = global_locale w2.

(** Two worlds in which the OS reports the same version. *)
Definition same_os (w1 w2 : World) : Prop :=
  version_status w1 = version_status w2 /\
  version_info w1 = version_info w2.

(* ------------------------------------------------------------------ *)
(** ** flutter_p2p_connection_plugin_c_api.cpp *)

(** [flutter::PluginRegistrarManager] belongs to the framework: it keeps
    one registrar wrapper per registrar reference and creates the wrapper
    the first time the reference is asked for.  A wrapper is identified by
    the reference it wraps. *)
Definition GetRegistrar (registrar_ref : Z)
    (registrars : gmap Z PluginRegistrarWindows)
  : PluginRegistrarWindows * gmap Z PluginRegistrarWindows :=
  match registrars !! registrar_ref with
  | Some r => (r, registrars)
  | None =>
    let r := {| address := registrar_ref; messenger := ∅; plugins := [] |} in
    (r, <[registrar_ref := r]> registrars)
  end.

(** The exported entry point: the registration runs on the wrapper kept
    for the reference, and the wrapper is updated in place. *)
Definition FlutterP2pConnectionPluginCApiRegisterWithRegistrar
    (registrar : Z) (registrars : gmap Z PluginRegistrarWindows)
  : M (gmap Z PluginRegistrarWindows) :=
  let '(r, registrars) := GetRegistrar registrar registrars in
  let* r := flutter_p2p_connection.RegisterWithRegistrar r in
  ret (<[registrar := r]> registrars).

(** A call arriving on a channel: the messenger runs the handler bound to
    the channel's name, if there is one, on a fresh result object. *)
Definition deliver_call (r : PluginRegistrarWindows) (channel : string)
    (call : MethodCall) : M (option MethodResult) :=
  match messenger r !! channel with
  | Some handler => let* result := handler call [] in ret (Some result)
  | None => ret None
  end.

(* ------------------------------------------------------------------ *)
(** ** Further vocabulary *)

(** Well-formed UTF-16: 16-bit code units in which every high surrogate is
    followed by a low one and no low surrogate stands alone. *)
Fixpoint valid_utf16 (l : list Z) : bool :=
  match l with
  | [] => true
  | u :: l1 =>
    if is_high u then
      match l1 with
      | v :: l2 => is_low v && valid_utf16 l2
      | [] => false
      end
    else negb (is_low u) && in_range 0 65535 u && valid_utf16 l1
  end.

(** Every element is a 16-bit code unit. *)
Definition are_wchars (l : list Z) : bool := forallb (in_range 0 65535) l.

(** The largest number of code units whose UTF-8 form is sure to fit an
    [int]: three bytes at most per unit. *)
Definition WIDE_MAX : Z := 715827882.

(** The round trip that starts from a wide string. *)
Definition wide_round_trip (wstr : wstring) : M wstring :=
  let* s := utils.wstring_to_string wstr in
  utils.string_to_wstring s.

Definition is_getPlatformVersion (call : MethodCall) : bool :=
  String.eqb (method_name call) "getPlatformVersion".

(** The calls one dispatch is expected to make, by path. *)
Definition dispatch_calls (call : MethodCall) (w : World) : list OsCall :=
  if is_getPlatformVersion call then
    if version_status w =? 0
    then [call_RtlGetVersion; call_WideCharToMultiByte;
          call_WideCharToMultiByte]
    else [call_RtlGetVersion]
  else [].

(* ------------------------------------------------------------------ *)
(** ** Proof tools *)

Local Arguments wf1 : simpl never.
Local Arguments wf2 : simpl never.
Local Arguments wf3 : simpl never.
Local Arguments wf4 : simpl never.
Local Arguments is_high : simpl never.
Local Arguments is_low : simpl never.
Local Arguments is_scalar : simpl never.
Local Arguments utf8_encode1 : simpl never.
Local Arguments utf16_encode1 : simpl never.
Local Arguments cp2 : simpl never.
Local Arguments cp3 : simpl never.
Local Arguments cp4 : simpl never.
Local Arguments cp_pair : simpl never.
Local Arguments digits_value : simpl never.
Local Arguments in_range : simpl never.

(** Boolean tests on integers, read as (in)equalities. *)
Ltac btop :=
  repeat match goal with
  | H : _ && _ = true |- _ => apply andb_true_iff in H; destruct H
  | H : _ || _ = true |- _ => apply orb_true_iff in H; destruct H
  | H : _ && _ = false |- _ => apply andb_false_iff in H; destruct H
  | H : _ || _ = false |- _ => apply orb_false_iff in H; destruct H
  | H : (_ <=? _) = true |- _ => apply Z.leb_le in H
  | H : (_ <=? _) = false |- _ => apply Z.leb_gt in H
  | H : (_ <? _) = true |- _ => apply Z.ltb_lt in H
  | H : (_ <? _) = false |- _ => apply Z.ltb_ge in H
  | H : (_ =? _) = true |- _ => apply Z.eqb_eq in H
  | H : (_ =? _) = false |- _ => apply Z.eqb_neq in H
  end.

(** Decide the integer tests that guard the branches of the goal. *)
Ltac split_tests :=
  repeat match goal with
  | |- context [?a <? ?b] =>
    let E := fresh "E" in destruct (a <? b) eqn:E; btop; try lia
  | |- context [?a <=? ?b] =>
    let E := fresh "E" in destruct (a <=? b) eqn:E; btop; try lia
  | |- context [?a =? ?b] =>
    let E := fresh "E" in destruct (a =? b) eqn:E; btop; try lia
  end.

(** Linear arithmetic with division and remainder by constants. *)
Ltac divlia := Z.div_mod_to_equations; lia.

(** Evaluate a well-formedness test on given bytes by arithmetic. *)
Ltac decide_wf :=
  unfold wf1, wf2, wf3, wf4, in_range;
  repeat rewrite ?andb_true_iff, ?orb_true_iff, ?andb_false_iff,
    ?orb_false_iff, ?Z.leb_le, ?Z.leb_gt, ?Z.eqb_eq, ?Z.eqb_neq;
  divlia.

(** Arithmetic on sizes, with the size functions and limits unfolded. *)
Ltac sizes :=
  unfold wstr_size, str_size, wstring, wchar_t, INT_MAX, WIDE_MAX in *;
  lia.

(* ------------------------------------------------------------------ *)
(** * Properties *)

(** ** Running the model *)

Example dispatch_win10 :
  fst (dispatch {| registrar_ := 0 |} (getPlatformVersion_call EncodableNull)
         (world0 0 10 0 19045))
  = [Success (EncodableString "Windows 10.0 Build 19045")].
Proof. vm_compute. reflexivity. Qed.

(* ------------------------------------------------------------------ *)
(** ** Arithmetic of the two encodings *)

Lemma to_int_small (x : Z) : 0 <= x <= INT_MAX -> to_int x = x.
Proof.
  unfold to_int, INT_MAX. intros Hx.
  rewrite Z.mod_small by lia. lia.
Qed.

Lemma wf1_encode (b0 : Z) :
  wf1 b0 = true -> utf8_encode1 b0 = [b0] /\ is_scalar b0 = true.
Proof.
  unfold wf1, in_range, utf8_encode1, is_scalar. intros H. btop.
  split; split_tests; reflexivity.
Qed.

Lemma wf2_encode (b0 b1 : Z) :
  wf2 b0 b1 = true ->
  utf8_encode1 (cp2 b0 b1) = [b0; b1] /\ is_scalar (cp2 b0 b1) = true.
Proof.
  unfold wf2, in_range, utf8_encode1, is_scalar, cp2. intros H. btop.
  split; split_tests; try reflexivity.
  f_equal; [|f_equal]; divlia.
Qed.

Lemma wf3_encode (b0 b1 b2 : Z) :
  wf3 b0 b1 b2 = true ->
  utf8_encode1 (cp3 b0 b1 b2) = [b0; b1; b2]
  /\ is_scalar (cp3 b0 b1 b2) = true.
Proof.
  unfold wf3, in_range, utf8_encode1, is_scalar, cp3. intros H. btop;
    (split; split_tests; try reflexivity;
     f_equal; [|f_equal; [|f_equal]]; divlia).
Qed.

Lemma wf4_encode (b0 b1 b2 b3 : Z) :
  wf4 b0 b1 b2 b3 = true ->
  utf8_encode1 (cp4 b0 b1 b2 b3) = [b0; b1; b2; b3]
  /\ is_scalar (cp4 b0 b1 b2 b3) = true.
Proof.
  unfold wf4, in_range, utf8_encode1, is_scalar, cp4. intros H. btop;
    (split; split_tests; try reflexivity;
     f_equal; [|f_equal; [|f_equal; [|f_equal]]]; divlia).
Qed.

Lemma utf16_decode_encode1 (c : Z) (rest : list Z) :
  is_scalar c = true ->
  utf16_decode (utf16_encode1 c ++ rest) = c :: utf16_decode rest.
Proof.
  unfold is_scalar, utf16_encode1. intros H.
  destruct (c <? 65536) eqn:E; btop; simpl.
  - assert (is_high c = false) as -> by (unfold is_high, in_range; split_tests; reflexivity).
    assert (is_low c = false) as -> by (unfold is_low, in_range; split_tests; reflexivity).
    reflexivity.
  - assert (is_high c = false) as -> by (unfold is_high, in_range; split_tests; reflexivity).
    assert (is_low c = false) as -> by (unfold is_low, in_range; split_tests; reflexivity).
    reflexivity.
  - lia.
  - assert (is_high (55296 + (c - 65536) / 1024) = true) as ->.
    { unfold is_high, in_range. rewrite andb_true_iff, !Z.leb_le. divlia. }
    assert (is_low (56320 + (c - 65536) mod 1024) = true) as ->.
    { unfold is_low, in_range. rewrite andb_true_iff, !Z.leb_le. divlia. }
    f_equal. unfold cp_pair. divlia.
Qed.

Lemma utf16_decode_encode (cs : list Z) :
  forallb is_scalar cs = true -> utf16_decode (utf16_encode cs) = cs.
Proof.
  induction cs as [|c cs IH]; simpl; intros H; [reflexivity|].
  apply andb_true_iff in H as [Hc Hcs].
  unfold utf16_encode in *. rewrite utf16_decode_encode1 by assumption.
  f_equal. auto.
Qed.

(** A scalar value takes no more UTF-16 code units than UTF-8 bytes. *)
Lemma utf16_length_le_utf8 (cs : list Z) :
  (List.length (utf16_encode cs) <= List.length (utf8_encode cs))%nat.
Proof.
  induction cs as [|c cs IH]; simpl; [lia|].
  unfold utf16_encode, utf8_encode in *. rewrite !length_app.
  assert (List.length (utf16_encode1 c) <= List.length (utf8_encode1 c))%nat.
  { unfold utf16_encode1, utf8_encode1. split_tests; simpl; lia. }
  lia.
Qed.

(** On valid input the decoder never replaces: it yields scalar values
    whose encoding is the input. *)
Lemma utf8_decode_valid_bounded (n : nat) :
  forall l : list Z,
    (List.length l <= n)%nat ->
    valid_utf8_bytes l = true ->
    utf8_encode (utf8_decode l) = l
    /\ forallb is_scalar (utf8_decode l) = true.
Proof.
  induction n as [|n IH]; intros l Hlen Hv.
  { destruct l; [split; reflexivity | simpl in Hlen; lia]. }
  destruct l as [|b0 l1]; [split; reflexivity|].
  simpl in Hlen. simpl in Hv. simpl.
  destruct (wf1 b0) eqn:E1.
  { destruct (wf1_encode _ E1) as [He Hs].
    destruct (IH l1 ltac:(lia) Hv) as [IH1 IH2].
    simpl. unfold utf8_encode in *. rewrite He, Hs, IH1, IH2. auto. }
  destruct l1 as [|b1 l2]; [discriminate|]. simpl in Hlen.
  destruct (wf2 b0 b1) eqn:E2.
  { destruct (wf2_encode _ _ E2) as [He Hs].
    destruct (IH l2 ltac:(lia) Hv) as [IH1 IH2].
    simpl. unfold utf8_encode in *. rewrite He, Hs, IH1, IH2. auto. }
  destruct l2 as [|b2 l3]; [discriminate|]. simpl in Hlen.
  destruct (wf3 b0 b1 b2) eqn:E3.
  { destruct (wf3_encode _ _ _ E3) as [He Hs].
    destruct (IH l3 ltac:(lia) Hv) as [IH1 IH2].
    simpl. unfold utf8_encode in *. rewrite He, Hs, IH1, IH2. auto. }
  destruct l3 as [|b3 l4]; [discriminate|]. simpl in Hlen.
  apply andb_true_iff in Hv as [E4 Hv]. rewrite E4.
  destruct (wf4_encode _ _ _ _ E4) as [He Hs].
  destruct (IH l4 ltac:(lia) Hv) as [IH1 IH2].
  simpl. unfold utf8_encode in *. rewrite He, Hs, IH1, IH2. auto.
Qed.

Lemma utf8_decode_valid (l : list Z) :
  valid_utf8_bytes l = true ->
  utf8_encode (utf8_decode l) = l
  /\ forallb is_scalar (utf8_decode l) = true.
Proof. apply (utf8_decode_valid_bounded (List.length l)). lia. Qed.

(** Transcoding valid UTF-8 to UTF-16 and back is the identity on bytes. *)
Lemma transcode_roundtrip (l : list Z) :
  valid_utf8_bytes l = true ->
  utf8_encode (utf16_decode (utf16_encode (utf8_decode l))) = l.
Proof.
  intros Hv. destruct (utf8_decode_valid l Hv) as [He Hs].
  rewrite utf16_decode_encode by assumption. exact He.
Qed.

(* ------------------------------------------------------------------ *)
(** ** Strings and their bytes *)

Lemma byte_of_char_range (c : ascii) : 0 <= byte_of_char c < 256.
Proof.
  unfold byte_of_char. pose proof (N_ascii_bounded c). lia.
Qed.

Lemma char_of_byte_of_char (c : ascii) : char_of_byte (byte_of_char c) = c.
Proof.
  unfold char_of_byte, byte_of_char. rewrite N2Z.id. apply ascii_N_embedding.
Qed.

Lemma byte_of_char_of_byte (b : Z) :
  0 <= b < 256 -> byte_of_char (char_of_byte b) = b.
Proof.
  intros Hb. unfold char_of_byte, byte_of_char.
  rewrite N_ascii_embedding by lia. lia.
Qed.

Lemma string_of_bytes_of_string (s : string) :
  string_of_bytes (bytes_of_string s) = s.
Proof.
  unfold string_of_bytes, bytes_of_string. rewrite map_map.
  rewrite (map_ext _ (fun c => c)) by apply char_of_byte_of_char.
  rewrite map_id. apply string_of_list_ascii_of_string.
Qed.

Lemma bytes_of_string_of_bytes (l : list Z) :
  Forall (fun b => 0 <= b < 256) l ->
  bytes_of_string (string_of_bytes l) = l.
Proof.
  intros Hl. unfold string_of_bytes, bytes_of_string.
  rewrite list_ascii_of_string_of_list_ascii, map_map.
  induction Hl as [|b l Hb _ IH]; simpl; [reflexivity|].
  rewrite byte_of_char_of_byte by assumption. f_equal. exact IH.
Qed.

Lemma string_of_bytes_app (l1 l2 : list Z) :
  string_of_bytes (l1 ++ l2)
  = String.append (string_of_bytes l1) (string_of_bytes l2).
Proof.
  unfold string_of_bytes. induction l1 as [|b l1 IH]; simpl; [reflexivity|].
  rewrite IH. reflexivity.
Qed.

Lemma length_list_ascii_of_string (s : string) :
  List.length (list_ascii_of_string s) = String.length s.
Proof. induction s as [|c s IH]; simpl; [reflexivity | f_equal; exact IH]. Qed.

Lemma length_string_of_list_ascii (l : list ascii) :
  String.length (string_of_list_ascii l) = List.length l.
Proof. induction l as [|c l IH]; simpl; [reflexivity | f_equal; exact IH]. Qed.

Lemma length_bytes_of_string (s : string) :
  List.length (bytes_of_string s) = String.length s.
Proof.
  unfold bytes_of_string. rewrite length_map. apply length_list_ascii_of_string.
Qed.

Lemma bytes_of_string_range (s : string) :
  Forall (fun b => 0 <= b < 256) (bytes_of_string s).
Proof.
  unfold bytes_of_string.
  induction (list_ascii_of_string s) as [|c l IH]; simpl; constructor;
    [apply byte_of_char_range | exact IH].
Qed.

Lemma length_bytes_of_string_fill (n : Z) :
  List.length (bytes_of_string (string_fill n)) = Z.to_nat n.
Proof.
  rewrite length_bytes_of_string. unfold string_fill.
  rewrite length_string_of_list_ascii. apply repeat_length.
Qed.

Lemma str_empty_size (s : string) : str_empty s = true <-> str_size s = 0.
Proof.
  unfold str_size. destruct s; simpl; split; intros H;
    try reflexivity; try discriminate; lia.
Qed.

(* ------------------------------------------------------------------ *)
(** ** The conversion routines *)

Lemma source_chars_all (buf : list Z) :
  buf <> [] ->
  Z.of_nat (List.length buf) <= INT_MAX ->
  source_chars buf (to_int (Z.of_nat (List.length buf))) = Some buf.
Proof.
  intros Hne Hmax. rewrite to_int_small by lia.
  unfold source_chars.
  assert (0 < Z.of_nat (List.length buf)).
  { destruct buf; [congruence | simpl; lia]. }
  split_tests. rewrite Nat2Z.id, firstn_all. reflexivity.
Qed.

Lemma deliver_query (out dst : list Z) :
  Z.of_nat (List.length out) <= INT_MAX ->
  deliver out dst 0 = (Z.of_nat (List.length out), dst).
Proof.
  intros Hmax. unfold deliver.
  destruct (INT_MAX <? Z.of_nat (List.length out)) eqn:E; btop; [lia|].
  reflexivity.
Qed.

Lemma deliver_exact (out dst : list Z) :
  Z.of_nat (List.length out) <= INT_MAX ->
  List.length dst = List.length out ->
  deliver out dst (Z.of_nat (List.length out))
  = (Z.of_nat (List.length out), out).
Proof.
  intros Hmax Hlen. unfold deliver.
  destruct (INT_MAX <? Z.of_nat (List.length out)) eqn:E; btop; [lia|].
  destruct (Z.of_nat (List.length out) =? 0) eqn:E0; btop.
  - destruct out; [|simpl in E0; lia].
    destruct dst; [reflexivity | discriminate].
  - rewrite Z.leb_refl, <- Hlen, skipn_all, app_nil_r. reflexivity.
Qed.

Lemma deliver_nonneg (out dst : list Z) (capacity : Z) :
  0 <= fst (deliver out dst capacity).
Proof.
  unfold deliver.
  destruct (INT_MAX <? _); [simpl; lia|].
  destruct (capacity =? 0); [simpl; lia|].
  destruct (_ <=? capacity); simpl; lia.
Qed.

(** The sizes the helpers allocate with are never negative. *)
Lemma MultiByteToWideChar_answer_nonneg (cp fl : Z) (src : list Z) (cb : Z)
    (dst : list Z) (cch : Z) :
  0 <= fst (MultiByteToWideChar_answer cp fl src cb dst cch).
Proof.
  unfold MultiByteToWideChar_answer.
  destruct (_ && _); [|simpl; lia].
  destruct (source_chars src cb); [apply deliver_nonneg | simpl; lia].
Qed.

Lemma WideCharToMultiByte_answer_nonneg (cp fl : Z) (src : list Z) (cch : Z)
    (dst : list Z) (cb : Z) (dc udc : list Z) :
  0 <= fst (WideCharToMultiByte_answer cp fl src cch dst cb dc udc).
Proof.
  unfold WideCharToMultiByte_answer.
  destruct (_ && _); [|simpl; lia].
  destruct (source_chars src cch); [apply deliver_nonneg | simpl; lia].
Qed.

Section Conversions.

Variable w : World.

Lemma wstring_to_string_value (wstr : wstring) :
  wstr_size wstr <= INT_MAX ->
  Z.of_nat (List.length (utf8_encode (utf16_decode wstr))) <= INT_MAX ->
  fst (utils.wstring_to_string wstr w)
  = string_of_bytes (utf8_encode (utf16_decode wstr)).
Proof.
  intros Hin Hout. unfold utils.wstring_to_string.
  destruct (wstr_empty wstr) eqn:Ee.
  { destruct wstr; [reflexivity | discriminate]. }
  assert (wstr <> []) as Hne by (destruct wstr; [discriminate | congruence]).
  unfold bind, WideCharToMultiByte, WideCharToMultiByte_answer, wstr_size in *.
  simpl.
  rewrite source_chars_all by assumption.
  rewrite deliver_query by assumption.
  rewrite deliver_exact;
    [reflexivity | assumption |].
  rewrite length_bytes_of_string_fill. apply Nat2Z.id.
Qed.

Lemma string_to_wstring_value (str : string) :
  str_size str <= INT_MAX ->
  Z.of_nat (List.length (utf16_encode (utf8_decode (bytes_of_string str))))
    <= INT_MAX ->
  fst (utils.string_to_wstring str w)
  = utf16_encode (utf8_decode (bytes_of_string str)).
Proof.
  intros Hin Hout. unfold utils.string_to_wstring.
  destruct (str_empty str) eqn:Ee.
  { destruct str; [reflexivity | discriminate]. }
  assert (bytes_of_string str <> []) as Hne.
  { destruct str; [discriminate | unfold bytes_of_string; simpl; congruence]. }
  unfold bind, MultiByteToWideChar, MultiByteToWideChar_answer, str_size in *.
  simpl.
  rewrite <- length_bytes_of_string in *.
  rewrite source_chars_all by assumption.
  rewrite deliver_query by assumption.
  rewrite deliver_exact;
    [reflexivity | assumption |].
  unfold wstring_fill. rewrite repeat_length. apply Nat2Z.id.
Qed.

End Conversions.

(** When the byte count wraps to zero the first conversion is refused and
    the round trip yields the empty string. *)
Lemma round_trip_wrapped (s : string) (w : World) :
  str_empty s = false ->
  to_int (str_size s) = 0 ->
  fst (round_trip s w) = EmptyString.
Proof.
  intros He Hz.
  unfold round_trip, utils.string_to_wstring, bind, MultiByteToWideChar,
    MultiByteToWideChar_answer.
  rewrite He, Hz. reflexivity.
Qed.

Lemma round_trip_wrapped_differs (s : string) (w : World) :
  str_empty s = false ->
  to_int (str_size s) = 0 ->
  fst (round_trip s w) <> s.
Proof.
  intros He Hz. rewrite round_trip_wrapped by assumption.
  intros Heq. subst s. discriminate He.
Qed.

Lemma bytes_of_long_string (n : nat) :
  bytes_of_string (long_string n) = repeat 97 n.
Proof.
  unfold bytes_of_string, long_string.
  rewrite list_ascii_of_string_of_list_ascii.
  induction n as [|n IH]; simpl; [reflexivity | f_equal; exact IH].
Qed.

Lemma valid_long_string (n : nat) : valid_utf8 (long_string n) = true.
Proof.
  unfold valid_utf8. rewrite bytes_of_long_string.
  induction n as [|n IH]; [reflexivity | exact IH].
Qed.

Lemma size_long_string (n : nat) : str_size (long_string n) = Z.of_nat n.
Proof.
  unfold str_size, long_string.
  rewrite length_string_of_list_ascii, repeat_length. reflexivity.
Qed.

Lemma four_gib_size : Z.of_nat four_gib = 4294967296.
Proof. unfold four_gib. rewrite N_nat_Z. reflexivity. Qed.

Lemma round_trip_four_gib :
  valid_utf8 (long_string four_gib) = true
  /\ str_size (long_string four_gib) = 4294967296
  /\ fst (round_trip (long_string four_gib) (world0 0 10 0 19045))
     = EmptyString
  /\ fst (round_trip (long_string four_gib) (world0 0 10 0 19045))
     <> long_string four_gib.
Proof.
  assert (str_size (long_string four_gib) = 4294967296) as Hsz.
  { rewrite size_long_string. apply four_gib_size. }
  assert (str_empty (long_string four_gib) = false) as Hne.
  { destruct (str_empty (long_string four_gib)) eqn:E; [|reflexivity].
    apply str_empty_size in E. rewrite Hsz in E. discriminate. }
  assert (fst (round_trip (long_string four_gib) (world0 0 10 0 19045))
          = EmptyString) as Hrt.
  { apply round_trip_wrapped; [exact Hne|]. rewrite Hsz. reflexivity. }
  split; [apply valid_long_string|].
  split; [exact Hsz|].
  split; [exact Hrt|].
  apply round_trip_wrapped_differs; [exact Hne|]. rewrite Hsz. reflexivity.
Qed.

Example sample_text_wide :
  fst (utils.string_to_wstring sample_text (world0 0 10 0 19045))
  = [104; 233; 8364; 55357; 56832].
Proof. vm_compute. reflexivity. Qed.

(** C9 (as amended). For every valid UTF-8 string of at most [INT_MAX]
    bytes, converting to UTF-16 with [string_to_wstring] and back with
    [wstring_to_string] returns the string unchanged. *)
Theorem round_trip_identity (s : string) (w : World) :
  valid_utf8 s = true ->
  str_size s <= INT_MAX ->
  fst (round_trip s w) = s.
Proof.
  intros Hv Hsz. unfold valid_utf8 in Hv.
  destruct (utf8_decode_valid _ Hv) as [He Hs].
  pose proof (utf16_length_le_utf8 (utf8_decode (bytes_of_string s))) as Hle.
  rewrite He, length_bytes_of_string in Hle.
  assert (Z.of_nat (List.length
            (utf16_encode (utf8_decode (bytes_of_string s)))) <= INT_MAX)
    as Hw by (unfold str_size in Hsz; lia).
  unfold round_trip, bind.
  pose proof (string_to_wstring_value w s Hsz Hw) as Hfst.
  destruct (utils.string_to_wstring s w) as [wstr w'].
  simpl in Hfst. subst wstr.
  rewrite wstring_to_string_value.
  - rewrite utf16_decode_encode by assumption.
    rewrite He. apply string_of_bytes_of_string.
  - exact Hw.
  - rewrite utf16_decode_encode by assumption.
    rewrite He, length_bytes_of_string. exact Hsz.
Qed.

Lemma round_trip_identity_witness :
  valid_utf8 sample_text = true
  /\ str_size sample_text <= INT_MAX
  /\ fst (round_trip sample_text (world0 0 10 0 19045)) = sample_text.
Proof.
  assert (valid_utf8 sample_text = true) as Hv by reflexivity.
  assert (str_size sample_text <= INT_MAX) as Hs by (vm_compute; discriminate).
  split; [exact Hv|]. split; [exact Hs|].
  exact (round_trip_identity sample_text (world0 0 10 0 19045) Hv Hs).
Defined.

(** C9 (as stated) fails: a valid UTF-8 string of 2^32 bytes has a byte
    count that [(int)str.size()] turns into 0; the conversion is refused
    and the round trip returns the empty string. *)
Lemma round_trip_counterexample :
  valid_utf8 (long_string four_gib) = true
  /\ fst (round_trip (long_string four_gib) (world0 0 10 0 19045))
     <> long_string four_gib.
Proof.
  destruct round_trip_four_gib as (Hv & _ & _ & Hne). split; assumption.
Qed.

(** On a non-empty argument each helper calls its conversion routine
    twice: once for the size, once to fill the buffer. *)
Lemma conversions_call_twice (str : string) (wstr : wstring) (w : World) :
  str_empty str = false ->
  wstr_empty wstr = false ->
  new_calls w (snd (utils.string_to_wstring str w))
  = [call_MultiByteToWideChar; call_MultiByteToWideChar]
  /\ new_calls w (snd (utils.wstring_to_string wstr w))
     = [call_WideCharToMultiByte; call_WideCharToMultiByte].
Proof.
  intros Hs Hw.
  unfold utils.string_to_wstring, utils.wstring_to_string, bind,
    MultiByteToWideChar, WideCharToMultiByte.
  rewrite Hs, Hw.
  destruct (MultiByteToWideChar_answer _ _ _ _ NULL 0) as [n1 b1].
  destruct (MultiByteToWideChar_answer _ _ _ _ (wstring_fill n1) n1)
    as [n2 b2].
  destruct (WideCharToMultiByte_answer _ _ _ _ NULL 0 _ _) as [m1 c1].
  destruct (WideCharToMultiByte_answer _ _ _ _ _ m1 _ _) as [m2 c2].
  unfold new_calls. simpl. rewrite <- !app_assoc. simpl.
  split; induction (os_calls w) as [|c l IH]; (reflexivity || exact IH).
Qed.

(** C10. On the empty string and the empty wstring the helpers return the
    empty result at once: the world is unchanged, so no conversion routine
    was called. *)
Theorem empty_conversions (w : World) :
  utils.string_to_wstring EmptyString w = ([], w)
  /\ utils.wstring_to_string [] w = (EmptyString, w)
  /\ new_calls w (snd (utils.string_to_wstring EmptyString w)) = []
  /\ new_calls w (snd (utils.wstring_to_string [] w)) = [].
Proof.
  split; [reflexivity|]. split; [reflexivity|].
  unfold new_calls. simpl. rewrite skipn_all. split; reflexivity.
Qed.

(* ------------------------------------------------------------------ *)
(** ** Decimal output *)

Lemma put_digits_are_digits (fuel : nat) :
  forall n acc,
    are_digits acc = true -> are_digits (put_digits fuel n acc) = true.
Proof.
  induction fuel as [|fuel IH]; intros n acc Hacc; simpl; [exact Hacc|].
  assert (are_digits ((48 + n mod 10) :: acc) = true) as Hd.
  { unfold are_digits in *. simpl. rewrite Hacc, andb_true_r.
    unfold in_range. rewrite andb_true_iff, !Z.leb_le. divlia. }
  destruct (n / 10 =? 0); [exact Hd | apply IH; exact Hd].
Qed.

Lemma put_digits_length (fuel : nat) :
  forall n acc,
    (List.length acc <= List.length (put_digits fuel n acc)
     <= fuel + List.length acc)%nat.
Proof.
  induction fuel as [|fuel IH]; intros n acc; simpl; [lia|].
  destruct (n / 10 =? 0); [simpl; lia|].
  specialize (IH (n / 10) ((48 + n mod 10) :: acc)). simpl in IH. lia.
Qed.

Lemma digits_value_cons (a d : Z) (l : list Z) :
  digits_value a (d :: l) = digits_value (a * 10 + (d - 48)) l.
Proof. reflexivity. Qed.

(** With enough fuel the digits denote the number. *)
Lemma put_digits_value (fuel : nat) :
  forall n acc,
    (1 <= fuel)%nat ->
    0 <= n < 10 ^ Z.of_nat fuel ->
    digits_value 0 (put_digits fuel n acc) = digits_value n acc.
Proof.
  induction fuel as [|fuel IH]; intros n acc Hf Hn; [lia|].
  rewrite Nat2Z.inj_succ, Z.pow_succ_r in Hn by lia.
  simpl. destruct (n / 10 =? 0) eqn:E; btop.
  - rewrite digits_value_cons. f_equal. divlia.
  - destruct fuel as [|fuel].
    { simpl in Hn. exfalso. divlia. }
    rewrite IH by (try lia; divlia).
    rewrite digits_value_cons. f_equal. divlia.
Qed.

Lemma decimal_are_digits (n : Z) : are_digits (decimal n) = true.
Proof. apply put_digits_are_digits. reflexivity. Qed.

Lemma decimal_length (n : Z) : (1 <= List.length (decimal n) <= 10)%nat.
Proof.
  unfold decimal. split.
  - simpl. destruct (n / 10 =? 0); [simpl; lia|].
    pose proof (put_digits_length 9 (n / 10) [48 + n mod 10]). simpl in *. lia.
  - pose proof (put_digits_length 10 n []). simpl in *. lia.
Qed.

Lemma decimal_value (n : Z) :
  0 <= n <= DWORD_MAX -> digits_value 0 (decimal n) = n.
Proof.
  unfold DWORD_MAX, decimal. intros Hn.
  rewrite put_digits_value; [reflexivity | lia |].
  change (10 ^ Z.of_nat 10) with 10000000000. lia.
Qed.

Lemma are_digits_is_ascii (l : list Z) : are_digits l = true -> is_ascii l = true.
Proof.
  unfold are_digits, is_ascii.
  induction l as [|d l IH]; simpl; intros H; [reflexivity|].
  apply andb_true_iff in H as [Hd Hl]. rewrite IH by assumption.
  unfold in_range in *. btop. rewrite andb_true_r, andb_true_iff, !Z.leb_le. lia.
Qed.

Lemma is_ascii_app (l1 l2 : list Z) :
  is_ascii (l1 ++ l2) = is_ascii l1 && is_ascii l2.
Proof. apply forallb_app. Qed.

(** A run of digit characters, as a narrow string, is an [<int>] with the
    same value. *)
Lemma string_of_digits_all (l : list Z) :
  are_digits l = true -> all_chars is_digit (string_of_bytes l) = true.
Proof.
  unfold are_digits, string_of_bytes.
  induction l as [|d l IH]; simpl; intros H; [reflexivity|].
  apply andb_true_iff in H as [Hd Hl]. rewrite IH by assumption.
  unfold is_digit. rewrite byte_of_char_of_byte, Hd; [reflexivity|].
  unfold in_range in Hd. btop. lia.
Qed.

Lemma string_of_digits_value (l : list Z) :
  forall acc,
    are_digits l = true ->
    int_value_from acc (string_of_bytes l) = digits_value acc l.
Proof.
  unfold are_digits, string_of_bytes.
  induction l as [|d l IH]; simpl; intros acc H; [reflexivity|].
  apply andb_true_iff in H as [Hd Hl].
  rewrite digits_value_cons, <- IH by assumption.
  rewrite byte_of_char_of_byte; [reflexivity|].
  unfold in_range in Hd. btop. lia.
Qed.

Lemma decimal_is_int (n : Z) : is_int (string_of_bytes (decimal n)) = true.
Proof.
  unfold is_int. rewrite string_of_digits_all by apply decimal_are_digits.
  pose proof (decimal_length n) as Hl.
  destruct (decimal n); [simpl in Hl; lia | reflexivity].
Qed.

Lemma decimal_int_value (n : Z) :
  0 <= n <= DWORD_MAX -> int_value (string_of_bytes (decimal n)) = n.
Proof.
  intros Hn. unfold int_value.
  rewrite string_of_digits_value by apply decimal_are_digits.
  apply decimal_value. exact Hn.
Qed.

(* ------------------------------------------------------------------ *)
(** ** ASCII text through the conversion *)

Lemma utf16_decode_ascii (l : list Z) : is_ascii l = true -> utf16_decode l = l.
Proof.
  unfold is_ascii. induction l as [|u l IH]; simpl; intros H; [reflexivity|].
  apply andb_true_iff in H as [Hu Hl]. unfold in_range in Hu. btop.
  assert (is_high u = false) as ->
    by (unfold is_high, in_range; split_tests; reflexivity).
  assert (is_low u = false) as ->
    by (unfold is_low, in_range; split_tests; reflexivity).
  f_equal. auto.
Qed.

Lemma utf8_encode_ascii (l : list Z) : is_ascii l = true -> utf8_encode l = l.
Proof.
  unfold is_ascii, utf8_encode.
  induction l as [|u l IH]; simpl; intros H; [reflexivity|].
  apply andb_true_iff in H as [Hu Hl]. rewrite IH by assumption.
  destruct (wf1_encode u Hu) as [-> _]. reflexivity.
Qed.

Lemma wstring_to_string_ascii (wstr : wstring) (w : World) :
  is_ascii wstr = true ->
  wstr_size wstr <= INT_MAX ->
  fst (utils.wstring_to_string wstr w) = string_of_bytes wstr.
Proof.
  intros Ha Hs. rewrite wstring_to_string_value.
  - rewrite utf16_decode_ascii, utf8_encode_ascii by assumption. reflexivity.
  - exact Hs.
  - rewrite utf16_decode_ascii, utf8_encode_ascii by assumption. exact Hs.
Qed.

(* ------------------------------------------------------------------ *)
(** ** The three paths of [HandleMethodCall] *)

Section Dispatcher.

Import flutter_p2p_connection.

Variable this : FlutterP2pConnectionPlugin.

Lemma HandleMethodCall_other (call : MethodCall) (result : MethodResult)
    (w : World) :
  String.eqb (method_name call) "getPlatformVersion" = false ->
  HandleMethodCall this call result w = (result ++ [NotImplemented], w).
Proof. intros H. unfold HandleMethodCall. rewrite H. reflexivity. Qed.

Lemma HandleMethodCall_failure (call : MethodCall) (result : MethodResult)
    (w : World) :
  String.eqb (method_name call) "getPlatformVersion" = true ->
  version_status w <> 0 ->
  HandleMethodCall this call result w
  = (result ++ [Error "VERSION_ERROR" "Failed to get Windows version."],
     record_call call_RtlGetVersion w).
Proof.
  intros H Hs. unfold HandleMethodCall, bind, RtlGetVersion. rewrite H.
  apply Z.eqb_neq in Hs. rewrite Hs. cbv beta iota. rewrite Hs. reflexivity.
Qed.

Lemma HandleMethodCall_success (call : MethodCall) (result : MethodResult)
    (w : World) :
  String.eqb (method_name call) "getPlatformVersion" = true ->
  version_status w = 0 ->
  HandleMethodCall this call result w
  = let (s, w') :=
      utils.wstring_to_string
        (str (version_stream (global_locale w) (version_info w)))
        (record_call call_RtlGetVersion w) in
    (result ++ [Success (EncodableString s)], w').
Proof.
  intros H Hs. unfold HandleMethodCall, bind, RtlGetVersion.
  rewrite H, Hs. reflexivity.
Qed.

End Dispatcher.

Lemma version_stream_parts (loc : Locale) (v : OSVERSIONINFOEXW) :
  str (version_stream loc v)
  = L "Windows " ++ group_digits loc (decimal (dwMajorVersion v)) ++ L "."
      ++ group_digits loc (decimal (dwMinorVersion v)) ++ L " Build "
      ++ group_digits loc (decimal (dwBuildNumber v)).
Proof.
  unfold version_stream, put_ulong, put_wstr. simpl.
  rewrite <- !app_assoc. reflexivity.
Qed.

Lemma insert_seps_nil (fuel : nat) (sep : Z) (groups : list Z) :
  insert_seps fuel sep groups [] = [].
Proof.
  destruct fuel; [reflexivity|]. simpl.
  destruct groups as [|g gs]; [reflexivity|].
  destruct ((g <=? 0) || (CHAR_MAX <=? g)); reflexivity.
Qed.

(** The fuel [group_digits] gives, one unit per digit, is enough: more
    fuel changes nothing. *)
Lemma insert_seps_fuel (sep : Z) (f1 : nat) :
  forall f2 groups rs,
    (List.length rs <= f1)%nat ->
    (List.length rs <= f2)%nat ->
    insert_seps f1 sep groups rs = insert_seps f2 sep groups rs.
Proof.
  induction f1 as [|f1 IH]; intros f2 groups rs H1 H2.
  { destruct rs; [|simpl in H1; lia]. rewrite !insert_seps_nil. reflexivity. }
  destruct f2 as [|f2].
  { destruct rs; [|simpl in H2; lia]. rewrite !insert_seps_nil. reflexivity. }
  simpl. destruct groups as [|g gs]; [reflexivity|].
  destruct ((g <=? 0) || (CHAR_MAX <=? g)) eqn:Eg; [reflexivity|].
  destruct (List.length rs <=? Z.to_nat g)%nat eqn:El; [reflexivity|].
  apply Nat.leb_gt in El. btop.
  f_equal. f_equal.
  apply IH; rewrite length_skipn; lia.
Qed.

(** A locale that groups no digits writes them as they are. *)
Lemma group_digits_plain (loc : Locale) (ds : list Z) :
  groups_digits loc = false -> group_digits loc ds = ds.
Proof.
  unfold groups_digits, group_digits, CHAR_MAX. intros H.
  assert (insert_seps (List.length ds) (thousands_sep loc) (grouping loc)
            (rev ds) = rev ds) as ->.
  { destruct (List.length ds); [reflexivity|]. simpl.
    destruct (grouping loc) as [|g gs]; [reflexivity|].
    unfold CHAR_MAX. btop.
    - assert ((g <=? 0) = true) as -> by (apply Z.leb_le; lia). reflexivity.
    - assert ((127 <=? g) = true) as -> by (apply Z.leb_le; lia).
      rewrite orb_true_r. reflexivity. }
  apply rev_involutive.
Qed.

Lemma version_stream_plain (loc : Locale) (v : OSVERSIONINFOEXW) :
  groups_digits loc = false ->
  str (version_stream loc v)
  = L "Windows " ++ decimal (dwMajorVersion v) ++ L "."
      ++ decimal (dwMinorVersion v) ++ L " Build "
      ++ decimal (dwBuildNumber v).
Proof.
  intros H. rewrite version_stream_parts, !group_digits_plain by exact H.
  reflexivity.
Qed.

Lemma version_stream_ascii (loc : Locale) (v : OSVERSIONINFOEXW) :
  groups_digits loc = false ->
  is_ascii (str (version_stream loc v)) = true.
Proof.
  intros H. rewrite version_stream_plain, !is_ascii_app by exact H.
  rewrite (are_digits_is_ascii _ (decimal_are_digits (dwMajorVersion v))).
  rewrite (are_digits_is_ascii _ (decimal_are_digits (dwMinorVersion v))).
  rewrite (are_digits_is_ascii _ (decimal_are_digits (dwBuildNumber v))).
  reflexivity.
Qed.

Lemma version_stream_length (loc : Locale) (v : OSVERSIONINFOEXW) :
  groups_digits loc = false ->
  (19 <= List.length (str (version_stream loc v)) <= 46)%nat.
Proof.
  intros H. rewrite version_stream_plain, !length_app by exact H.
  pose proof (decimal_length (dwMajorVersion v)).
  pose proof (decimal_length (dwMinorVersion v)).
  pose proof (decimal_length (dwBuildNumber v)).
  change (List.length (L "Windows ")) with 8%nat.
  change (List.length (L ".")) with 1%nat.
  change (List.length (L " Build ")) with 7%nat.
  sizes.
Qed.

Lemma version_stream_size (loc : Locale) (v : OSVERSIONINFOEXW) :
  groups_digits loc = false ->
  wstr_size (str (version_stream loc v)) <= INT_MAX.
Proof.
  intros H. pose proof (version_stream_length loc v H). sizes.
Qed.

Lemma version_stream_text (loc : Locale) (v : OSVERSIONINFOEXW) :
  groups_digits loc = false ->
  string_of_bytes (str (version_stream loc v))
  = "Windows " +:+ string_of_bytes (decimal (dwMajorVersion v))
      +:+ "." +:+ string_of_bytes (decimal (dwMinorVersion v))
      +:+ " Build " +:+ string_of_bytes (decimal (dwBuildNumber v)).
Proof.
  intros H. rewrite version_stream_plain, !string_of_bytes_app by exact H.
  unfold L. rewrite !string_of_bytes_of_string. reflexivity.
Qed.

(** C1 (as amended). When the method name is getPlatformVersion, the
    version query answers 0 and the process-global C++ locale groups no
    digits (as the classic locale), the dispatcher replies once, with
    [Success] of the string Windows, a space, major, a dot, minor, the word
    Build between spaces, and build, where the three numbers are the
    decimal forms of the record's fields: a word, then int.int, then Build
    and an int. *)
Theorem getPlatformVersion_success (this : FlutterP2pConnectionPlugin)
    (call : MethodCall) (result : MethodResult) (w : World) :
  method_name call = "getPlatformVersion" ->
  version_status w = 0 ->
  groups_digits (global_locale w) = false ->
  DWORD_fields (version_info w) ->
  exists major minor build : string,
    fst (flutter_p2p_connection.HandleMethodCall this call result w)
    = result ++ [Success (EncodableString
        ("Windows" +:+ " " +:+ major +:+ "." +:+ minor
           +:+ " Build " +:+ build))]
    /\ is_word "Windows" = true
    /\ (is_int major = true
        /\ int_value major = dwMajorVersion (version_info w))
    /\ (is_int minor = true
        /\ int_value minor = dwMinorVersion (version_info w))
    /\ (is_int build = true
        /\ int_value build = dwBuildNumber (version_info w)).
Proof.
  intros Hm Hs Hloc (Hmaj & Hmin & Hbld).
  exists (string_of_bytes (decimal (dwMajorVersion (version_info w)))),
         (string_of_bytes (decimal (dwMinorVersion (version_info w)))),
         (string_of_bytes (decimal (dwBuildNumber (version_info w)))).
  split.
  - rewrite HandleMethodCall_success
      by (try assumption; rewrite Hm; reflexivity).
    pose proof (wstring_to_string_ascii
                  (str (version_stream (global_locale w) (version_info w)))
                  (record_call call_RtlGetVersion w)
                  (version_stream_ascii _ _ Hloc)
                  (version_stream_size _ _ Hloc)) as Hc.
    destruct (utils.wstring_to_string _ _) as [s w'].
    cbn [fst] in Hc. subst s. cbn [fst].
    rewrite version_stream_text by exact Hloc. reflexivity.
  - split; [reflexivity|].
    repeat split; auto using decimal_is_int, decimal_int_value.
Qed.

Lemma getPlatformVersion_success_witness :
  exists major minor build : string,
    fst (flutter_p2p_connection.HandleMethodCall {| registrar_ := 0 |}
           (getPlatformVersion_call EncodableNull) []
           (world0 0 10 0 19045))
    = [] ++ [Success (EncodableString
        ("Windows" +:+ " " +:+ major +:+ "." +:+ minor
           +:+ " Build " +:+ build))]
    /\ is_word "Windows" = true
    /\ (is_int major = true /\ int_value major = 10)
    /\ (is_int minor = true /\ int_value minor = 0)
    /\ (is_int build = true /\ int_value build = 19045).
Proof.
  apply (getPlatformVersion_success {| registrar_ := 0 |}
           (getPlatformVersion_call EncodableNull) [] (world0 0 10 0 19045)).
  - reflexivity.
  - reflexivity.
  - reflexivity.
  - unfold DWORD_fields, DWORD_MAX. simpl. lia.
Defined.

Lemma append_inv_head (s a b : string) : s +:+ a = s +:+ b -> a = b.
Proof.
  induction s as [|c s IH]; intros H; [exact H|].
  apply IH. change (String c (s +:+ a) = String c (s +:+ b)) in H.
  congruence.
Qed.

(** Two runs of digits that are followed by the same other character are
    equal when the whole strings are. *)
Lemma string_digits_split (x : ascii) (a : string) :
  forall a' r r',
    is_digit x = false ->
    all_chars is_digit a = true ->
    all_chars is_digit a' = true ->
    a +:+ String x r = a' +:+ String x r' ->
    a = a' /\ r = r'.
Proof.
  induction a as [|d a IH]; intros a' r r' Hx Ha Ha' Heq.
  - destruct a' as [|d' a'].
    + split; [reflexivity|]. change (String x r = String x r') in Heq.
      congruence.
    + change (String x r = String d' (a' +:+ String x r')) in Heq.
      simpl in Ha'. apply andb_true_iff in Ha' as [Hd _]. congruence.
  - destruct a' as [|d' a'].
    + change (String d (a +:+ String x r) = String x r') in Heq.
      simpl in Ha. apply andb_true_iff in Ha as [Hd _]. congruence.
    + change (String d (a +:+ String x r) = String d' (a' +:+ String x r'))
        in Heq.
      simpl in Ha, Ha'.
      apply andb_true_iff in Ha as [_ Ha].
      apply andb_true_iff in Ha' as [_ Ha'].
      injection Heq as -> Heq.
      destruct (IH a' r r' Hx Ha Ha' Heq) as [-> ->]. split; reflexivity.
Qed.

(** C1 (as stated) fails: where the global locale groups digits by
    thousands with a comma, build 19045 is written 19,045, and the reply
    is not of the form word, int.int, Build, int. *)
Lemma getPlatformVersion_grouped :
  method_name (getPlatformVersion_call EncodableNull) = "getPlatformVersion"
  /\ version_status grouped_world = 0
  /\ DWORD_fields (version_info grouped_world)
  /\ fst (flutter_p2p_connection.HandleMethodCall {| registrar_ := 0 |}
            (getPlatformVersion_call EncodableNull) [] grouped_world)
     = [Success (EncodableString "Windows 10.0 Build 19,045")]
  /\ ~ (exists major minor build : string,
          fst (flutter_p2p_connection.HandleMethodCall {| registrar_ := 0 |}
                 (getPlatformVersion_call EncodableNull) [] grouped_world)
          = [] ++ [Success (EncodableString
              ("Windows" +:+ " " +:+ major +:+ "." +:+ minor
                 +:+ " Build " +:+ build))]
          /\ is_int major = true /\ is_int minor = true
          /\ is_int build = true).
Proof.
  assert (fst (flutter_p2p_connection.HandleMethodCall {| registrar_ := 0 |}
                 (getPlatformVersion_call EncodableNull) [] grouped_world)
          = [Success (EncodableString "Windows 10.0 Build 19,045")]) as Hr
    by (vm_compute; reflexivity).
  split; [reflexivity|]. split; [reflexivity|].
  split; [unfold DWORD_fields, DWORD_MAX; simpl; lia|].
  split; [exact Hr|].
  intros (major & minor & build & Heq & Hmaj & Hmin & Hbld).
  rewrite Hr in Heq. simpl in Heq.
  assert ("Windows 10.0 Build 19,045"
          = "Windows" +:+ " " +:+ major +:+ "." +:+ minor
              +:+ " Build " +:+ build) as Hs by congruence.
  clear Heq.
  unfold is_int in Hmaj, Hmin, Hbld.
  apply andb_true_iff in Hmaj as [_ Hmaj].
  apply andb_true_iff in Hmin as [_ Hmin].
  apply andb_true_iff in Hbld as [_ Hbld].
  apply (append_inv_head "Windows " "10.0 Build 19,045") in Hs.
  apply (string_digits_split "." "10" major "0 Build 19,045"
           (minor +:+ " Build " +:+ build)) in Hs as [<- Hs];
    [|reflexivity | reflexivity | exact Hmaj].
  apply (string_digits_split " " "0" minor "Build 19,045"
           ("Build " +:+ build)) in Hs as [<- Hs];
    [|reflexivity | reflexivity | exact Hmin].
  apply (append_inv_head "Build " "19,045") in Hs. subst build.
  discriminate Hbld.
Qed.

(* ------------------------------------------------------------------ *)
(** ** What a run leaves in the world *)

Lemma add_calls_nil (w : World) : add_calls [] w = w.
Proof. destruct w. unfold add_calls. simpl. rewrite app_nil_r. reflexivity. Qed.

Lemma add_calls_add_calls (cs1 cs2 : list OsCall) (w : World) :
  add_calls cs2 (add_calls cs1 w) = add_calls (cs1 ++ cs2) w.
Proof. unfold add_calls. simpl. rewrite app_assoc. reflexivity. Qed.

Lemma new_calls_add_calls (cs : list OsCall) (w : World) :
  new_calls w (add_calls cs w) = cs.
Proof.
  unfold new_calls. simpl.
  induction (os_calls w) as [|c l IH]; [reflexivity | exact IH].
Qed.

Lemma same_env_add_calls (cs : list OsCall) (w : World) :
  same_env (add_calls cs w) w.
Proof. repeat split. Qed.

Lemma same_env_trans (w1 w2 w3 : World) :
  same_env w1 w2 -> same_env w2 w3 -> same_env w1 w3.
Proof.
  unfold same_env. intros (-> & -> & ->) (-> & -> & ->). repeat split.
Qed.

(** The text [wstring_to_string] returns does not depend on the world, and
    the world only gains the two conversion calls. *)
Lemma wstring_to_string_run (wstr : wstring) :
  exists (s : string) (cs : list OsCall),
    forallb apartment_neutral cs = true
    /\ forall w, utils.wstring_to_string wstr w = (s, add_calls cs w).
Proof.
  unfold utils.wstring_to_string. destruct (wstr_empty wstr).
  { exists EmptyString, []. split; [reflexivity|].
    intros w. rewrite add_calls_nil. reflexivity. }
  destruct (WideCharToMultiByte_answer CP_UTF8 0 wstr
              (to_int (wstr_size wstr)) NULL 0 NULL NULL) as [n b] eqn:E1.
  destruct (WideCharToMultiByte_answer CP_UTF8 0 wstr
              (to_int (wstr_size wstr))
              (bytes_of_string (string_fill n)) n NULL NULL)
    as [n2 b2] eqn:E2.
  exists (string_of_bytes b2),
         [call_WideCharToMultiByte; call_WideCharToMultiByte].
  split; [reflexivity|]. intros w.
  unfold bind, WideCharToMultiByte. rewrite E1. cbv beta iota. rewrite E2.
  unfold ret, record_call, add_calls. simpl. rewrite <- app_assoc. reflexivity.
Qed.

Section DispatcherEffects.

Import flutter_p2p_connection.

(** A call to the dispatcher leaves the version state and the apartment as
    they were and records only apartment-neutral calls. *)
Lemma HandleMethodCall_world (this : FlutterP2pConnectionPlugin)
    (call : MethodCall) (result : MethodResult) (w : World) :
  exists cs,
    snd (HandleMethodCall this call result w) = add_calls cs w
    /\ forallb apartment_neutral cs = true.
Proof.
  destruct (String.eqb (method_name call) "getPlatformVersion") eqn:Em.
  - destruct (Z.eq_dec (version_status w) 0) as [Hs|Hs].
    + rewrite HandleMethodCall_success by assumption.
      destruct (wstring_to_string_run
                  (str (version_stream (global_locale w) (version_info w))))
        as (s & cs & Hcs & Hrun).
      rewrite Hrun. exists (call_RtlGetVersion :: cs). split.
      * simpl. unfold record_call, add_calls. simpl.
        rewrite <- app_assoc. reflexivity.
      * simpl. exact Hcs.
    + rewrite HandleMethodCall_failure by assumption.
      exists [call_RtlGetVersion]. split; reflexivity.
  - rewrite HandleMethodCall_other by assumption.
    exists []. split; [|reflexivity]. simpl. rewrite add_calls_nil. reflexivity.
Qed.

(** The replies depend only on the method name, on what the OS reports as
    its version and on the global locale: not on the arguments, the plugin
    object or the record of earlier calls. *)
Lemma HandleMethodCall_same (this1 this2 : FlutterP2pConnectionPlugin)
    (call1 call2 : MethodCall) (result : MethodResult) (w1 w2 : World) :
  method_name call1 = method_name call2 ->
  same_env w1 w2 ->
  fst (HandleMethodCall this1 call1 result w1)
  = fst (HandleMethodCall this2 call2 result w2).
Proof.
  intros Hm (Hs & Hi & Hl).
  destruct (String.eqb (method_name call1) "getPlatformVersion") eqn:E1.
  - assert (String.eqb (method_name call2) "getPlatformVersion" = true)
      as E2 by (rewrite <- Hm; exact E1).
    destruct (Z.eq_dec (version_status w1) 0) as [H0|H0].
    + rewrite !HandleMethodCall_success by congruence.
      rewrite <- Hi, <- Hl.
      destruct (wstring_to_string_run
                  (str (version_stream (global_locale w1) (version_info w1))))
        as (s & cs & _ & Hrun).
      rewrite !Hrun. reflexivity.
    + rewrite !HandleMethodCall_failure by congruence. reflexivity.
  - assert (String.eqb (method_name call2) "getPlatformVersion" = false)
      as E2 by (rewrite <- Hm; exact E1).
    rewrite !HandleMethodCall_other by assumption. reflexivity.
Qed.

(** Every path replies exactly once. *)
Lemma HandleMethodCall_one_reply (this : FlutterP2pConnectionPlugin)
    (call : MethodCall) (result : MethodResult) (w : World) :
  exists o : Reply,
    fst (HandleMethodCall this call result w) = result ++ [o].
Proof.
  destruct (String.eqb (method_name call) "getPlatformVersion") eqn:Em.
  - destruct (Z.eq_dec (version_status w) 0) as [Hs|Hs].
    + rewrite HandleMethodCall_success by assumption.
      destruct (utils.wstring_to_string _ _) as [s w']. eexists. reflexivity.
    + rewrite HandleMethodCall_failure by assumption. eexists. reflexivity.
  - rewrite HandleMethodCall_other by assumption. eexists. reflexivity.
Qed.

End DispatcherEffects.

(** C2. When the method name is getPlatformVersion and the version query
    answers a non-zero status, the dispatcher replies once, with the error
    VERSION_ERROR and its message, and with no [Success]. *)
Theorem getPlatformVersion_failure (this : FlutterP2pConnectionPlugin)
    (call : MethodCall) (result : MethodResult) (w : World) :
  method_name call = "getPlatformVersion" ->
  version_status w <> 0 ->
  fst (flutter_p2p_connection.HandleMethodCall this call result w)
  = result ++ [Error "VERSION_ERROR" "Failed to get Windows version."]
  /\ forall v, ~ In (Success v) (fst (dispatch this call w)).
Proof.
  intros Hm Hs.
  assert (String.eqb (method_name call) "getPlatformVersion" = true) as Em
    by (rewrite Hm; reflexivity).
  split.
  - rewrite HandleMethodCall_failure by assumption. reflexivity.
  - intros v. unfold dispatch.
    rewrite HandleMethodCall_failure by assumption. simpl.
    intros [H|[]]. discriminate H.
Qed.

Lemma getPlatformVersion_failure_witness :
  fst (flutter_p2p_connection.HandleMethodCall {| registrar_ := 0 |}
         (getPlatformVersion_call EncodableNull) []
         (world0 (-1073741823) 0 0 0))
  = [] ++ [Error "VERSION_ERROR" "Failed to get Windows version."]
  /\ forall v, ~ In (Success v)
       (fst (dispatch {| registrar_ := 0 |}
               (getPlatformVersion_call EncodableNull)
               (world0 (-1073741823) 0 0 0))).
Proof.
  apply (getPlatformVersion_failure {| registrar_ := 0 |}
           (getPlatformVersion_call EncodableNull) []
           (world0 (-1073741823) 0 0 0)).
  - reflexivity.
  - simpl. lia.
Defined.

(** C3. For every method name other than getPlatformVersion the dispatcher
    replies [NotImplemented], whatever the arguments, and calls nothing. *)
Theorem other_methods_not_implemented (this : FlutterP2pConnectionPlugin)
    (call : MethodCall) (result : MethodResult) (w : World) :
  method_name call <> "getPlatformVersion" ->
  flutter_p2p_connection.HandleMethodCall this call result w
  = (result ++ [NotImplemented], w).
Proof.
  intros Hm. apply HandleMethodCall_other. apply String.eqb_neq. exact Hm.
Qed.

Lemma other_methods_not_implemented_witness :
  flutter_p2p_connection.HandleMethodCall {| registrar_ := 0 |}
    {| method_name := "ble#scan";
       arguments := EncodableList [EncodableInt32 5; EncodableString "x"] |}
    [] (world0 0 10 0 19045)
  = ([] ++ [NotImplemented], world0 0 10 0 19045).
Proof.
  apply (other_methods_not_implemented {| registrar_ := 0 |}
           {| method_name := "ble#scan";
              arguments :=
                EncodableList [EncodableInt32 5; EncodableString "x"] |}
           [] (world0 0 10 0 19045)).
  simpl. discriminate.
Defined.

Example not_implemented_examples (args : EncodableValue) (w : World) :
  Forall (fun name =>
            dispatch {| registrar_ := 0 |}
              {| method_name := name; arguments := args |} w
            = ([NotImplemented], w))
    [""; "getplatformversion"; "GetPlatformVersion"; "getPlatformVersion ";
     "unknownMethod"; "ble#scan"; "checkBluetoothEnabled"].
Proof. repeat constructor. Qed.

(** C4. Every dispatch call gives exactly one reply through its result
    object, and the reply is a [Success], an [Error] or
    [NotImplemented]. *)
Theorem exactly_one_reply (this : FlutterP2pConnectionPlugin)
    (call : MethodCall) (result : MethodResult) (w : World) :
  (exists o : Reply,
     fst (flutter_p2p_connection.HandleMethodCall this call result w)
     = result ++ [o]
     /\ ((exists v, o = Success v)
         \/ (exists code message, o = Error code message)
         \/ o = NotImplemented))
  /\ List.length (fst (dispatch this call w)) = 1%nat.
Proof.
  split.
  - destruct (HandleMethodCall_one_reply this call result w) as [o Ho].
    exists o. split; [exact Ho|].
    destruct o; [left | right; left | right; right]; eauto.
  - unfold dispatch.
    destruct (HandleMethodCall_one_reply this call [] w) as [o ->].
    reflexivity.
Qed.

(** C8 (as amended). Two dispatch calls with the same method name, run
    where the OS reports the same version and the process-global C++
    locale is the same, give the same replies, whatever their arguments:
    the arguments are never read, and the replies depend only on the method
    name, the version query and that locale. *)
Theorem arguments_ignored (this : FlutterP2pConnectionPlugin)
    (call1 call2 : MethodCall) (result : MethodResult) (w1 w2 : World) :
  method_name call1 = method_name call2 ->
  same_env w1 w2 ->
  fst (flutter_p2p_connection.HandleMethodCall this call1 result w1)
  = fst (flutter_p2p_connection.HandleMethodCall this call2 result w2).
Proof. apply HandleMethodCall_same. Qed.

Lemma arguments_ignored_witness :
  fst (flutter_p2p_connection.HandleMethodCall {| registrar_ := 0 |}
         (getPlatformVersion_call EncodableNull) []
         (world0 0 10 0 19045))
  = fst (flutter_p2p_connection.HandleMethodCall {| registrar_ := 0 |}
           (getPlatformVersion_call
              (EncodableMap [(EncodableString "k", EncodableBool true)])) []
           (add_calls [call_RtlGetVersion] (world0 0 10 0 19045))).
Proof.
  apply (arguments_ignored {| registrar_ := 0 |}
           (getPlatformVersion_call EncodableNull)
           (getPlatformVersion_call
              (EncodableMap [(EncodableString "k", EncodableBool true)]))
           [] (world0 0 10 0 19045)
           (add_calls [call_RtlGetVersion] (world0 0 10 0 19045))).
  - reflexivity.
  - repeat split.
Defined.

(** C8 (as stated) fails: two getPlatformVersion calls, run where the OS
    reports the same version, give different replies when the global
    locale of the one groups digits and that of the other does not. *)
Lemma arguments_ignored_locale :
  method_name (getPlatformVersion_call EncodableNull)
  = method_name (getPlatformVersion_call EncodableNull)
  /\ same_os (world0 0 10 0 19045) grouped_world
  /\ fst (flutter_p2p_connection.HandleMethodCall {| registrar_ := 0 |}
            (getPlatformVersion_call EncodableNull) [] (world0 0 10 0 19045))
     <> fst (flutter_p2p_connection.HandleMethodCall {| registrar_ := 0 |}
               (getPlatformVersion_call EncodableNull) [] grouped_world).
Proof.
  split; [reflexivity|]. split; [split; reflexivity|].
  vm_compute. discriminate.
Qed.

(* ------------------------------------------------------------------ *)
(** ** Sequences of calls and whole lifetimes *)

Lemma dispatch_all_run (this : FlutterP2pConnectionPlugin)
    (calls : list MethodCall) :
  forall w,
    exists cs,
      snd (dispatch_all this calls w) = add_calls cs w
      /\ forallb apartment_neutral cs = true.
Proof.
  induction calls as [|c calls IH]; intros w; simpl.
  { exists []. rewrite add_calls_nil. split; reflexivity. }
  unfold bind, dispatch.
  destruct (HandleMethodCall_world this c [] w) as (cs1 & H1 & Hn1).
  destruct (flutter_p2p_connection.HandleMethodCall this c [] w) as [r w1].
  simpl in H1. subst w1.
  destruct (IH (add_calls cs1 w)) as (cs2 & H2 & Hn2).
  destruct (dispatch_all this calls (add_calls cs1 w)) as [rs w2].
  simpl in H2. subst w2. simpl.
  exists (cs1 ++ cs2). rewrite add_calls_add_calls, forallb_app, Hn1, Hn2.
  split; reflexivity.
Qed.


Lemma count_neutral (c : OsCall) (cs : list OsCall) :
  apartment_neutral c = false ->
  forallb apartment_neutral cs = true ->
  count_call c cs = 0%nat.
Proof.
  intros Hc. unfold count_call.
  induction cs as [|x cs IH]; simpl; intros H; [reflexivity|].
  apply andb_true_iff in H as [Hx Hcs].
  destruct (OsCall_eq_dec x c) as [->|_]; [|auto].
  rewrite Hc in Hx. discriminate Hx.
Qed.

Lemma count_call_app (c : OsCall) (l1 l2 : list OsCall) :
  count_call c (l1 ++ l2) = (count_call c l1 + count_call c l2)%nat.
Proof. apply count_occ_app. Qed.

Lemma lifetime_run (registrar : Z) (calls : list MethodCall) (w : World) :
  exists mid,
    forallb apartment_neutral mid = true
    /\ snd (lifetime registrar calls w)
       = add_calls (call_init_apartment :: mid ++ [call_uninit_apartment]) w.
Proof.
  unfold lifetime, bind,
    flutter_p2p_connection.FlutterP2pConnectionPlugin_ctor,
    flutter_p2p_connection.FlutterP2pConnectionPlugin_dtor,
    init_apartment, uninit_apartment. simpl.
  set (w1 := record_call call_init_apartment
               (set_apartment (apartment w + 1) w)).
  destruct (dispatch_all_run {| registrar_ := registrar |} calls w1)
    as (mid & Hrun & Hmid).
  destruct (dispatch_all {| registrar_ := registrar |} calls w1) as [rs w2].
  simpl in Hrun. subst w2. exists mid. split; [exact Hmid|].
  unfold ret, record_call, set_apartment, add_calls, w1. simpl.
  f_equal; [lia|]. rewrite <- !app_assoc. reflexivity.
Qed.

(** C6. Over a plugin lifetime, with any calls in between (none
    included), the apartment is initialised exactly once, first, and
    released exactly once, last; the count of outstanding initialisations
    ends where it began; and no dispatch call acquires or releases it. *)
Theorem apartment_symmetry (registrar : Z) (calls : list MethodCall)
    (w : World) :
  let w' := snd (lifetime registrar calls w) in
  apartment w' = apartment w
  /\ count_call call_init_apartment (new_calls w w') = 1%nat
  /\ count_call call_uninit_apartment (new_calls w w') = 1%nat
  /\ (exists mid,
        new_calls w w' = call_init_apartment :: mid ++ [call_uninit_apartment]
        /\ forallb apartment_neutral mid = true)
  /\ new_calls w (snd (lifetime registrar [] w))
     = [call_init_apartment; call_uninit_apartment]
  /\ (forall this call w0,
        apartment (snd (dispatch this call w0)) = apartment w0
        /\ forallb apartment_neutral (new_calls w0 (snd (dispatch this call w0)))
           = true)
  /\ apartment
       (snd (flutter_p2p_connection.FlutterP2pConnectionPlugin_ctor registrar w))
     = apartment w + 1
  /\ (forall this w0,
        apartment
          (snd (flutter_p2p_connection.FlutterP2pConnectionPlugin_dtor this w0))
        = apartment w0 - 1).
Proof.
  intros w'. subst w'.
  destruct (lifetime_run registrar calls w) as (mid & Hmid & ->).
  rewrite new_calls_add_calls.
  split; [reflexivity|].
  split.
  { change (call_init_apartment :: mid ++ [call_uninit_apartment])
      with ([call_init_apartment] ++ mid ++ [call_uninit_apartment]).
    rewrite !count_call_app, (count_neutral _ mid) by (reflexivity || assumption).
    reflexivity. }
  split.
  { change (call_init_apartment :: mid ++ [call_uninit_apartment])
      with ([call_init_apartment] ++ mid ++ [call_uninit_apartment]).
    rewrite !count_call_app, (count_neutral _ mid) by (reflexivity || assumption).
    reflexivity. }
  split; [exists mid; split; [reflexivity | exact Hmid]|].
  split.
  { unfold new_calls. simpl. rewrite <- app_assoc.
    induction (os_calls w) as [|c l IH]; [reflexivity | exact IH]. }
  split; [|split; [reflexivity | intros; reflexivity]].
  intros this call w0. unfold dispatch.
  destruct (HandleMethodCall_world this call [] w0) as (cs & -> & Hcs).
  rewrite new_calls_add_calls. split; [reflexivity | exact Hcs].
Qed.



(** C5. Registration constructs one plugin, which the registrar then
    owns, and binds one channel, named flutter_p2p_connection, to a
    handler that passes each call and its result object, as they are, to
    that plugin's [HandleMethodCall]. *)
Theorem registration (registrar : PluginRegistrarWindows) (w : World) :
  let plugin := {| registrar_ := address registrar |} in
  let r' := fst (flutter_p2p_connection.RegisterWithRegistrar registrar w) in
  let w' := snd (flutter_p2p_connection.RegisterWithRegistrar registrar w) in
  plugins r' = plugins registrar ++ [plugin]
  /\ new_calls w w' = [call_init_apartment]
  /\ Constants.METHOD_CHANNEL_NAME = "flutter_p2p_connection"
  /\ dom (messenger r')
     = {[ "flutter_p2p_connection" ]} ∪ dom (messenger registrar)
  /\ (forall name,
        name <> "flutter_p2p_connection" ->
        messenger r' !! name = messenger registrar !! name)
  /\ (exists handler,
        messenger r' !! "flutter_p2p_connection" = Some handler
        /\ forall call result w0,
             handler call result w0
             = flutter_p2p_connection.HandleMethodCall plugin call result w0).
Proof.
  intros plugin r' w'. subst plugin r' w'.
  unfold flutter_p2p_connection.RegisterWithRegistrar, bind,
    flutter_p2p_connection.FlutterP2pConnectionPlugin_ctor, init_apartment,
    ret, SetMethodCallHandler, AddPlugin. simpl.
  split; [reflexivity|].
  split.
  { unfold new_calls. simpl.
    induction (os_calls w) as [|c l IH]; [reflexivity | exact IH]. }
  split; [reflexivity|].
  split; [apply dom_insert_L|].
  split.
  { intros name Hne. apply lookup_insert_ne.
    intros Heq. apply Hne. rewrite <- Heq. reflexivity. }
  eexists. split; [apply lookup_insert_eq|]. reflexivity.
Qed.

(* ------------------------------------------------------------------ *)
(** * Further properties *)

(** ** The decoders on arbitrary input *)

Lemma is_scalar_REPLACEMENT : is_scalar REPLACEMENT = true.
Proof. reflexivity. Qed.

Lemma utf16_encode1_length (c : Z) :
  (1 <= List.length (utf16_encode1 c) <= List.length (utf8_encode1 c))%nat.
Proof.
  unfold utf16_encode1, utf8_encode1. split_tests; simpl; lia.
Qed.

(** Whatever the bytes, decoding yields scalar values, and their UTF-16
    form has no more code units than there were bytes. *)
Lemma utf8_decode_any_bounded (n : nat) :
  forall l : list Z,
    (List.length l <= n)%nat ->
    forallb is_scalar (utf8_decode l) = true
    /\ (List.length (utf16_encode (utf8_decode l)) <= List.length l)%nat.
Proof.
  induction n as [|n IH]; intros l Hlen.
  { destruct l; [split; [reflexivity | simpl; lia] | simpl in Hlen; lia]. }
  destruct l as [|b0 l1]; [split; [reflexivity | simpl; lia]|].
  simpl in Hlen.
  destruct (IH l1 ltac:(lia)) as [S1 N1].
  assert (forallb is_scalar (REPLACEMENT :: utf8_decode l1) = true
          /\ (List.length (utf16_encode (REPLACEMENT :: utf8_decode l1))
              <= S (List.length l1))%nat) as Hrep.
  { split; [simpl; rewrite S1; reflexivity|].
    unfold utf16_encode in *. simpl. lia. }
  simpl. destruct (wf1 b0) eqn:E1.
  { destruct (wf1_encode _ E1) as [He Hs].
    pose proof (utf16_encode1_length b0) as Hl. rewrite He in Hl.
    split; [simpl; rewrite Hs, S1; reflexivity|].
    unfold utf16_encode in *. simpl. rewrite length_app. simpl in Hl. lia. }
  destruct l1 as [|b1 l2]; [split; [reflexivity | simpl; lia]|].
  simpl in Hlen.
  destruct (wf2 b0 b1) eqn:E2.
  { destruct (wf2_encode _ _ E2) as [He Hs].
    destruct (IH l2 ltac:(lia)) as [S2 N2].
    pose proof (utf16_encode1_length (cp2 b0 b1)) as Hl. rewrite He in Hl.
    split; [simpl; rewrite Hs, S2; reflexivity|].
    unfold utf16_encode in *. simpl. rewrite length_app. simpl in Hl. lia. }
  destruct l2 as [|b2 l3]; [exact Hrep|]. simpl in Hlen.
  destruct (wf3 b0 b1 b2) eqn:E3.
  { destruct (wf3_encode _ _ _ E3) as [He Hs].
    destruct (IH l3 ltac:(lia)) as [S3 N3].
    pose proof (utf16_encode1_length (cp3 b0 b1 b2)) as Hl. rewrite He in Hl.
    split; [simpl; rewrite Hs, S3; reflexivity|].
    unfold utf16_encode in *. simpl. rewrite length_app. simpl in Hl. lia. }
  destruct l3 as [|b3 l4]; [exact Hrep|]. simpl in Hlen.
  destruct (wf4 b0 b1 b2 b3) eqn:E4; [|exact Hrep].
  destruct (wf4_encode _ _ _ _ E4) as [He Hs].
  destruct (IH l4 ltac:(lia)) as [S4 N4].
  pose proof (utf16_encode1_length (cp4 b0 b1 b2 b3)) as Hl. rewrite He in Hl.
  split; [simpl; rewrite Hs, S4; reflexivity|].
  unfold utf16_encode in *. simpl. rewrite length_app. simpl in Hl. lia.
Qed.

Lemma utf8_decode_scalars (l : list Z) :
  forallb is_scalar (utf8_decode l) = true.
Proof. apply (utf8_decode_any_bounded (List.length l)). lia. Qed.

Lemma utf8_decode_units (l : list Z) :
  (List.length (utf16_encode (utf8_decode l)) <= List.length l)%nat.
Proof. apply (utf8_decode_any_bounded (List.length l)). lia. Qed.

Lemma utf8_decode_nonempty (l : list Z) : l <> [] -> utf8_decode l <> [].
Proof.
  destruct l as [|b0 l1]; [congruence|]. intros _. simpl.
  destruct (wf1 b0); [discriminate|].
  destruct l1 as [|b1 l2]; [discriminate|].
  destruct (wf2 b0 b1); [discriminate|].
  destruct l2 as [|b2 l3]; [discriminate|].
  destruct (wf3 b0 b1 b2); [discriminate|].
  destruct l3 as [|b3 l4]; [discriminate|].
  destruct (wf4 b0 b1 b2 b3); discriminate.
Qed.

Lemma utf16_encode_nonempty (cs : list Z) : cs <> [] -> utf16_encode cs <> [].
Proof.
  destruct cs as [|c cs]; [congruence|]. intros _.
  unfold utf16_encode. simpl. unfold utf16_encode1.
  destruct (c <? 65536); discriminate.
Qed.

(** The UTF-16 form of scalar values is well formed. *)
Lemma utf16_encode_valid (cs : list Z) :
  forallb is_scalar cs = true -> valid_utf16 (utf16_encode cs) = true.
Proof.
  induction cs as [|c cs IH]; simpl; intros H; [reflexivity|].
  apply andb_true_iff in H as [Hc Hcs]. specialize (IH Hcs).
  unfold utf16_encode in *. simpl.
  unfold is_scalar in Hc. unfold utf16_encode1.
  destruct (c <? 65536) eqn:E; btop; simpl.
  - assert (is_high c = false) as ->
      by (unfold is_high, in_range; split_tests; reflexivity).
    assert (is_low c = false) as ->
      by (unfold is_low, in_range; split_tests; reflexivity).
    assert (in_range 0 65535 c = true) as ->
      by (unfold in_range; split_tests; reflexivity).
    exact IH.
  - assert (is_high c = false) as ->
      by (unfold is_high, in_range; split_tests; reflexivity).
    assert (is_low c = false) as ->
      by (unfold is_low, in_range; split_tests; reflexivity).
    assert (in_range 0 65535 c = true) as ->
      by (unfold in_range; split_tests; reflexivity).
    exact IH.
  - lia.
  - assert (is_high (55296 + (c - 65536) / 1024) = true) as ->.
    { unfold is_high, in_range. rewrite andb_true_iff, !Z.leb_le. divlia. }
    assert (is_low (56320 + (c - 65536) mod 1024) = true) as ->.
    { unfold is_low, in_range. rewrite andb_true_iff, !Z.leb_le. divlia. }
    exact IH.
Qed.

(** ** Encoding, then decoding *)

Lemma utf8_decode_encode1 (c : Z) (rest : list Z) :
  is_scalar c = true ->
  utf8_decode (utf8_encode1 c ++ rest) = c :: utf8_decode rest
  /\ valid_utf8_bytes (utf8_encode1 c ++ rest) = valid_utf8_bytes rest.
Proof.
  unfold is_scalar, utf8_encode1. intros H.
  destruct (c <? 128) eqn:E1; [|destruct (c <? 2048) eqn:E2;
    [|destruct (c <? 65536) eqn:E3]]; btop; try lia; simpl.
  - assert (wf1 c = true) as -> by decide_wf. split; reflexivity.
  - assert (wf1 (192 + c / 64) = false) as -> by decide_wf.
    assert (wf2 (192 + c / 64) (128 + c mod 64) = true) as -> by decide_wf.
    split; [|reflexivity]. f_equal. unfold cp2. divlia.
  - assert (wf1 (224 + c / 4096) = false) as -> by decide_wf.
    assert (wf2 (224 + c / 4096) (128 + (c / 64) mod 64) = false) as ->
      by decide_wf.
    assert (wf3 (224 + c / 4096) (128 + (c / 64) mod 64) (128 + c mod 64)
            = true) as -> by decide_wf.
    split; [|reflexivity]. f_equal. unfold cp3. divlia.
  - assert (wf1 (224 + c / 4096) = false) as -> by decide_wf.
    assert (wf2 (224 + c / 4096) (128 + (c / 64) mod 64) = false) as ->
      by decide_wf.
    assert (wf3 (224 + c / 4096) (128 + (c / 64) mod 64) (128 + c mod 64)
            = true) as -> by decide_wf.
    split; [|reflexivity]. f_equal. unfold cp3. divlia.
  - assert (wf1 (240 + c / 262144) = false) as -> by decide_wf.
    assert (wf2 (240 + c / 262144) (128 + (c / 4096) mod 64) = false) as ->
      by decide_wf.
    assert (wf3 (240 + c / 262144) (128 + (c / 4096) mod 64)
              (128 + (c / 64) mod 64) = false) as -> by decide_wf.
    assert (wf4 (240 + c / 262144) (128 + (c / 4096) mod 64)
              (128 + (c / 64) mod 64) (128 + c mod 64) = true) as ->
      by decide_wf.
    split; [|reflexivity]. f_equal. unfold cp4. divlia.
Qed.

Lemma utf8_decode_encode (cs : list Z) :
  forallb is_scalar cs = true ->
  utf8_decode (utf8_encode cs) = cs
  /\ valid_utf8_bytes (utf8_encode cs) = true.
Proof.
  induction cs as [|c cs IH]; simpl; intros H; [split; reflexivity|].
  apply andb_true_iff in H as [Hc Hcs]. destruct (IH Hcs) as [IH1 IH2].
  unfold utf8_encode in *.
  destruct (utf8_decode_encode1 c (flat_map utf8_encode1 cs) Hc) as [-> ->].
  rewrite IH1. split; [reflexivity | exact IH2].
Qed.

(** The bytes of an encoded scalar value are bytes, three at most for a
    value below 2^16. *)
Lemma utf8_encode1_bytes (c : Z) :
  is_scalar c = true ->
  Forall (fun b => 0 <= b < 256) (utf8_encode1 c).
Proof.
  unfold is_scalar, utf8_encode1. intros H.
  destruct (c <? 128) eqn:E1; [|destruct (c <? 2048) eqn:E2;
    [|destruct (c <? 65536) eqn:E3]]; btop; try lia;
    repeat (constructor; [divlia|]); constructor.
Qed.

Lemma utf8_encode_bytes (cs : list Z) :
  forallb is_scalar cs = true ->
  Forall (fun b => 0 <= b < 256) (utf8_encode cs).
Proof.
  induction cs as [|c cs IH]; simpl; intros H; [constructor|].
  apply andb_true_iff in H as [Hc Hcs]. unfold utf8_encode in *. simpl.
  apply Forall_app. split; [apply utf8_encode1_bytes; exact Hc | auto].
Qed.

(** ** Wide input *)

(** Whatever the 16-bit code units, decoding yields scalar values, and
    their UTF-8 form takes at most three bytes per code unit. *)
Lemma utf16_decode_any_bounded (n : nat) :
  forall l : list Z,
    (List.length l <= n)%nat ->
    are_wchars l = true ->
    forallb is_scalar (utf16_decode l) = true
    /\ (List.length (utf8_encode (utf16_decode l)) <= 3 * List.length l)%nat.
Proof.
  unfold are_wchars.
  induction n as [|n IH]; intros l Hlen Hw.
  { destruct l; [split; [reflexivity | simpl; lia] | simpl in Hlen; lia]. }
  destruct l as [|u l1]; [split; [reflexivity | simpl; lia]|].
  simpl in Hlen, Hw. apply andb_true_iff in Hw as [Hu Hw1].
  destruct (IH l1 ltac:(lia) Hw1) as [S1 N1].
  assert (forallb is_scalar (REPLACEMENT :: utf16_decode l1) = true
          /\ (List.length (utf8_encode (REPLACEMENT :: utf16_decode l1))
              <= 3 * S (List.length l1))%nat) as Hrep.
  { split; [simpl; rewrite S1; reflexivity|].
    unfold utf8_encode in *. simpl. lia. }
  simpl. destruct (is_high u) eqn:Eh.
  - destruct l1 as [|v l2]; [split; [reflexivity | simpl; lia]|].
    destruct (is_low v) eqn:El; [|exact Hrep].
    simpl in Hlen, Hw1. apply andb_true_iff in Hw1 as [Hv Hw2].
    destruct (IH l2 ltac:(lia) Hw2) as [S2 N2].
    assert (is_scalar (cp_pair u v) = true) as Hs.
    { unfold is_high, is_low, in_range, is_scalar, cp_pair in *. btop.
      rewrite orb_true_iff, !andb_true_iff, !Z.leb_le, !Z.ltb_lt. lia. }
    split; [simpl; rewrite Hs, S2; reflexivity|].
    unfold utf8_encode in *. simpl. rewrite length_app.
    assert (List.length (utf8_encode1 (cp_pair u v)) <= 4)%nat
      by (unfold utf8_encode1; split_tests; simpl; lia).
    lia.
  - destruct (is_low u) eqn:El; [exact Hrep|].
    assert (is_scalar u = true) as Hs.
    { unfold is_high, is_low, in_range, is_scalar in *. btop;
        rewrite orb_true_iff, !andb_true_iff, !Z.leb_le, !Z.ltb_lt; lia. }
    split; [simpl; rewrite Hs, S1; reflexivity|].
    unfold utf8_encode in *. simpl. rewrite length_app.
    assert (List.length (utf8_encode1 u) <= 3)%nat.
    { unfold in_range in Hu. btop.
      unfold utf8_encode1. split_tests; simpl; lia. }
    lia.
Qed.

Lemma utf16_decode_scalars (l : list Z) :
  are_wchars l = true -> forallb is_scalar (utf16_decode l) = true.
Proof. intros H. apply (utf16_decode_any_bounded (List.length l)); [lia | exact H]. Qed.

Lemma utf16_decode_bytes (l : list Z) :
  are_wchars l = true ->
  (List.length (utf8_encode (utf16_decode l)) <= 3 * List.length l)%nat.
Proof. intros H. apply (utf16_decode_any_bounded (List.length l)); [lia | exact H]. Qed.

(** On well-formed UTF-16 the decoder never replaces. *)
Lemma utf16_decode_valid_bounded (n : nat) :
  forall l : list Z,
    (List.length l <= n)%nat ->
    valid_utf16 l = true ->
    utf16_encode (utf16_decode l) = l /\ are_wchars l = true.
Proof.
  unfold are_wchars.
  induction n as [|n IH]; intros l Hlen Hv.
  { destruct l; [split; reflexivity | simpl in Hlen; lia]. }
  destruct l as [|u l1]; [split; reflexivity|].
  simpl in Hlen, Hv. simpl. destruct (is_high u) eqn:Eh.
  - destruct l1 as [|v l2]; [discriminate|].
    apply andb_true_iff in Hv as [El Hv]. rewrite El.
    simpl in Hlen. destruct (IH l2 ltac:(lia) Hv) as [IH1 IH2].
    unfold utf16_encode in *. simpl. rewrite IH1, IH2.
    unfold is_high, is_low, in_range in Eh, El. btop.
    split.
    + unfold utf16_encode1, cp_pair. split_tests. simpl.
      f_equal; [|f_equal]; divlia.
    + assert (in_range 0 65535 u = true) as ->
        by (unfold in_range; split_tests; reflexivity).
      assert (in_range 0 65535 v = true) as ->
        by (unfold in_range; split_tests; reflexivity).
      reflexivity.
  - apply andb_true_iff in Hv as [Hv Hv1].
    apply andb_true_iff in Hv as [El Hu].
    apply negb_true_iff in El. rewrite El.
    destruct (IH l1 ltac:(lia) Hv1) as [IH1 IH2].
    unfold utf16_encode in *. simpl. rewrite IH1, IH2, Hu.
    split; [|reflexivity].
    unfold in_range in Hu. btop. unfold utf16_encode1. split_tests.
    reflexivity.
Qed.

Lemma utf16_decode_valid (l : list Z) :
  valid_utf16 l = true ->
  utf16_encode (utf16_decode l) = l /\ are_wchars l = true.
Proof. apply (utf16_decode_valid_bounded (List.length l)). lia. Qed.

(** ** The conversion helpers on arbitrary input *)

Lemma str_size_string_of_bytes (l : list Z) :
  str_size (string_of_bytes l) = Z.of_nat (List.length l).
Proof.
  unfold str_size, string_of_bytes.
  rewrite length_string_of_list_ascii, length_map. reflexivity.
Qed.

Lemma bytes_of_string_nil (s : string) : bytes_of_string s = [] <-> s = EmptyString.
Proof.
  destruct s; unfold bytes_of_string; simpl; split; intros H;
    try reflexivity; discriminate.
Qed.

Lemma string_of_bytes_nil (l : list Z) : string_of_bytes l = EmptyString <-> l = [].
Proof.
  destruct l; unfold string_of_bytes; simpl; split; intros H;
    try reflexivity; discriminate.
Qed.

Lemma utf16_decode_nonempty (l : list Z) : l <> [] -> utf16_decode l <> [].
Proof.
  destruct l as [|u l1]; [congruence|]. intros _. simpl.
  destruct (is_high u).
  - destruct l1 as [|v l2]; [discriminate|]. destruct (is_low v); discriminate.
  - destruct (is_low u); discriminate.
Qed.

Lemma utf8_encode_nonempty (cs : list Z) : cs <> [] -> utf8_encode cs <> [].
Proof.
  destruct cs as [|c cs]; [congruence|]. intros _.
  unfold utf8_encode. simpl. unfold utf8_encode1.
  destruct (c <? 128); [discriminate|].
  destruct (c <? 2048); [discriminate|].
  destruct (c <? 65536); discriminate.
Qed.

(** X1. For every string of at most [INT_MAX] bytes, valid UTF-8 or not,
    [string_to_wstring] returns well-formed UTF-16 with at most as many
    code units as the string has bytes, and it returns the empty wstring
    only for the empty string. *)
Theorem string_to_wstring_well_formed (s : string) (w : World) :
  str_size s <= INT_MAX ->
  valid_utf16 (fst (utils.string_to_wstring s w)) = true
  /\ wstr_size (fst (utils.string_to_wstring s w)) <= str_size s
  /\ (fst (utils.string_to_wstring s w) = [] <-> s = EmptyString).
Proof.
  intros Hs.
  pose proof (utf8_decode_units (bytes_of_string s)) as Hu.
  rewrite length_bytes_of_string in Hu.
  rewrite string_to_wstring_value
    by (try assumption; sizes).
  split; [apply utf16_encode_valid, utf8_decode_scalars|].
  split; [sizes|].
  split.
  - intros He. apply bytes_of_string_nil.
    destruct (bytes_of_string s) as [|b l] eqn:Eb; [reflexivity|].
    exfalso. apply (utf16_encode_nonempty (utf8_decode (b :: l))).
    + apply utf8_decode_nonempty. discriminate.
    + exact He.
  - intros ->. reflexivity.
Qed.

Lemma string_to_wstring_well_formed_witness :
  valid_utf16 (fst (utils.string_to_wstring
                      (string_of_bytes [104; 255; 195; 169; 237; 160; 128])
                      (world0 0 10 0 19045))) = true
  /\ wstr_size (fst (utils.string_to_wstring
                       (string_of_bytes [104; 255; 195; 169; 237; 160; 128])
                       (world0 0 10 0 19045)))
     <= str_size (string_of_bytes [104; 255; 195; 169; 237; 160; 128])
  /\ (fst (utils.string_to_wstring
             (string_of_bytes [104; 255; 195; 169; 237; 160; 128])
             (world0 0 10 0 19045)) = []
      <-> string_of_bytes [104; 255; 195; 169; 237; 160; 128] = EmptyString).
Proof.
  apply (string_to_wstring_well_formed
           (string_of_bytes [104; 255; 195; 169; 237; 160; 128])
           (world0 0 10 0 19045)).
  vm_compute. discriminate.
Defined.

(** X2. [string_to_wstring] transcodes: given the UTF-8 form of a sequence
    of scalar values, of at most [INT_MAX] bytes, it returns the UTF-16
    form of the same sequence. *)
Theorem string_to_wstring_transcodes (cs : list Z) (w : World) :
  forallb is_scalar cs = true ->
  Z.of_nat (List.length (utf8_encode cs)) <= INT_MAX ->
  fst (utils.string_to_wstring (string_of_bytes (utf8_encode cs)) w)
  = utf16_encode cs.
Proof.
  intros Hcs Hlen.
  pose proof (utf8_encode_bytes cs Hcs) as Hb.
  pose proof (utf16_length_le_utf8 cs) as Hle.
  destruct (utf8_decode_encode cs Hcs) as [Hd _].
  rewrite string_to_wstring_value.
  - rewrite bytes_of_string_of_bytes, Hd by assumption. reflexivity.
  - rewrite str_size_string_of_bytes. exact Hlen.
  - rewrite bytes_of_string_of_bytes, Hd by assumption. sizes.
Qed.

Lemma string_to_wstring_transcodes_witness :
  fst (utils.string_to_wstring
         (string_of_bytes (utf8_encode [104; 233; 8364; 128512]))
         (world0 0 10 0 19045))
  = utf16_encode [104; 233; 8364; 128512].
Proof.
  apply (string_to_wstring_transcodes [104; 233; 8364; 128512]
           (world0 0 10 0 19045)).
  - reflexivity.
  - vm_compute. discriminate.
Defined.

(** X3. For every wstring of at most [WIDE_MAX] 16-bit code units,
    well-formed UTF-16 or not, [wstring_to_string] returns valid UTF-8 of
    at most three bytes per code unit, and it returns the empty string
    only for the empty wstring. *)
Theorem wstring_to_string_well_formed (wstr : wstring) (w : World) :
  are_wchars wstr = true ->
  wstr_size wstr <= WIDE_MAX ->
  valid_utf8 (fst (utils.wstring_to_string wstr w)) = true
  /\ str_size (fst (utils.wstring_to_string wstr w)) <= 3 * wstr_size wstr
  /\ (fst (utils.wstring_to_string wstr w) = EmptyString <-> wstr = []).
Proof.
  unfold WIDE_MAX. intros Hw Hs.
  pose proof (utf16_decode_bytes wstr Hw) as Hb.
  pose proof (utf16_decode_scalars wstr Hw) as Hsc.
  unfold wstr_size in *.
  rewrite wstring_to_string_value
    by sizes.
  split.
  { unfold valid_utf8.
    rewrite bytes_of_string_of_bytes by (apply utf8_encode_bytes; exact Hsc).
    apply utf8_decode_encode. exact Hsc. }
  split; [rewrite str_size_string_of_bytes; sizes|].
  rewrite string_of_bytes_nil. split.
  - intros He. destruct wstr as [|u l]; [reflexivity|].
    exfalso. apply (utf8_encode_nonempty (utf16_decode (u :: l))).
    + apply utf16_decode_nonempty. discriminate.
    + exact He.
  - intros ->. reflexivity.
Qed.

Lemma wstring_to_string_well_formed_witness :
  valid_utf8 (fst (utils.wstring_to_string [104; 56832; 233; 55357]
                     (world0 0 10 0 19045))) = true
  /\ str_size (fst (utils.wstring_to_string [104; 56832; 233; 55357]
                      (world0 0 10 0 19045)))
     <= 3 * wstr_size [104; 56832; 233; 55357]
  /\ (fst (utils.wstring_to_string [104; 56832; 233; 55357]
             (world0 0 10 0 19045)) = EmptyString
      <-> [104; 56832; 233; 55357] = []).
Proof.
  apply (wstring_to_string_well_formed [104; 56832; 233; 55357]
           (world0 0 10 0 19045)).
  - reflexivity.
  - vm_compute. discriminate.
Defined.

(** X4. [wstring_to_string] transcodes: given the UTF-16 form of a
    sequence of scalar values, of at most [WIDE_MAX] code units, it returns
    the UTF-8 form of the same sequence. *)
Theorem wstring_to_string_transcodes (cs : list Z) (w : World) :
  forallb is_scalar cs = true ->
  Z.of_nat (List.length (utf16_encode cs)) <= WIDE_MAX ->
  fst (utils.wstring_to_string (utf16_encode cs) w)
  = string_of_bytes (utf8_encode cs).
Proof.
  unfold WIDE_MAX. intros Hcs Hlen.
  pose proof (utf16_encode_valid cs Hcs) as Hv.
  destruct (utf16_decode_valid _ Hv) as [_ Hw].
  pose proof (utf16_decode_bytes _ Hw) as Hb.
  rewrite utf16_decode_encode in Hb by assumption.
  rewrite wstring_to_string_value.
  - rewrite utf16_decode_encode by assumption. reflexivity.
  - sizes.
  - rewrite utf16_decode_encode by assumption. sizes.
Qed.

Lemma wstring_to_string_transcodes_witness :
  fst (utils.wstring_to_string (utf16_encode [104; 233; 8364; 128512])
         (world0 0 10 0 19045))
  = string_of_bytes (utf8_encode [104; 233; 8364; 128512]).
Proof.
  apply (wstring_to_string_transcodes [104; 233; 8364; 128512]
           (world0 0 10 0 19045)).
  - reflexivity.
  - vm_compute. discriminate.
Defined.

(** X5. The round trip that starts from a wide string: for every
    well-formed UTF-16 wstring of at most [WIDE_MAX] code units, converting
    to UTF-8 with [wstring_to_string] and back with [string_to_wstring]
    returns the wstring unchanged. *)
Theorem wide_round_trip_identity (wstr : wstring) (w : World) :
  valid_utf16 wstr = true ->
  wstr_size wstr <= WIDE_MAX ->
  fst (wide_round_trip wstr w) = wstr.
Proof.
  unfold WIDE_MAX. intros Hv Hs.
  destruct (utf16_decode_valid wstr Hv) as [He Hw].
  pose proof (utf16_decode_scalars wstr Hw) as Hsc.
  pose proof (utf16_decode_bytes wstr Hw) as Hb.
  pose proof (utf8_encode_bytes _ Hsc) as Hbytes.
  destruct (utf8_decode_encode _ Hsc) as [Hd _].
  unfold wstr_size in Hs.
  unfold wide_round_trip, bind.
  pose proof (wstring_to_string_value w wstr) as Hfst.
  destruct (utils.wstring_to_string wstr w) as [s w'].
  simpl in Hfst. rewrite Hfst by sizes.
  rewrite string_to_wstring_value.
  - rewrite bytes_of_string_of_bytes, Hd by assumption. exact He.
  - rewrite str_size_string_of_bytes. sizes.
  - rewrite bytes_of_string_of_bytes, Hd, He by assumption. sizes.
Qed.

Lemma wide_round_trip_identity_witness :
  fst (wide_round_trip [104; 233; 8364; 55357; 56832] (world0 0 10 0 19045))
  = [104; 233; 8364; 55357; 56832].
Proof.
  apply (wide_round_trip_identity [104; 233; 8364; 55357; 56832]
           (world0 0 10 0 19045)).
  - reflexivity.
  - vm_compute. discriminate.
Defined.

(** ** ASCII text, wrapped sizes, guids *)

Lemma utf8_decode_ascii (l : list Z) : is_ascii l = true -> utf8_decode l = l.
Proof.
  unfold is_ascii. induction l as [|b l IH]; simpl; intros H; [reflexivity|].
  apply andb_true_iff in H as [Hb Hl].
  change (wf1 b) with (in_range 0 127 b). rewrite Hb. f_equal. auto.
Qed.

Lemma utf16_encode_ascii (l : list Z) : is_ascii l = true -> utf16_encode l = l.
Proof.
  unfold is_ascii, utf16_encode.
  induction l as [|b l IH]; simpl; intros H; [reflexivity|].
  apply andb_true_iff in H as [Hb Hl]. rewrite IH by assumption.
  unfold in_range in Hb. btop. unfold utf16_encode1. split_tests. reflexivity.
Qed.

Lemma string_to_wstring_ascii (s : string) (w : World) :
  is_ascii (bytes_of_string s) = true ->
  str_size s <= INT_MAX ->
  fst (utils.string_to_wstring s w) = L s.
Proof.
  intros Ha Hs. rewrite string_to_wstring_value.
  - rewrite utf8_decode_ascii, utf16_encode_ascii by assumption. reflexivity.
  - exact Hs.
  - rewrite utf8_decode_ascii, utf16_encode_ascii by assumption.
    rewrite length_bytes_of_string. exact Hs.
Qed.

(** X6. ASCII text passes through both helpers character by character
    (embedded null characters included): for an ASCII string of at most
    [INT_MAX] bytes, [string_to_wstring] returns its characters widened,
    and [wstring_to_string] on those returns the string. *)
Theorem ascii_conversions (s : string) (w : World) :
  is_ascii (bytes_of_string s) = true ->
  str_size s <= INT_MAX ->
  fst (utils.string_to_wstring s w) = L s
  /\ fst (utils.wstring_to_string (L s) w) = s.
Proof.
  intros Ha Hs. split; [apply string_to_wstring_ascii; assumption|].
  rewrite wstring_to_string_ascii.
  - apply string_of_bytes_of_string.
  - exact Ha.
  - unfold L, wstr_size. rewrite length_bytes_of_string. exact Hs.
Qed.

Lemma ascii_conversions_witness :
  fst (utils.string_to_wstring (string_of_bytes [97; 0; 98; 45; 55])
         (world0 0 10 0 19045))
  = L (string_of_bytes [97; 0; 98; 45; 55])
  /\ fst (utils.wstring_to_string (L (string_of_bytes [97; 0; 98; 45; 55]))
            (world0 0 10 0 19045))
     = string_of_bytes [97; 0; 98; 45; 55].
Proof.
  apply (ascii_conversions (string_of_bytes [97; 0; 98; 45; 55])
           (world0 0 10 0 19045)).
  - reflexivity.
  - vm_compute. discriminate.
Defined.

(** X7. When the byte count of a non-empty string is a multiple of 2^32,
    [(int)str.size()] is 0: both calls of the conversion routine are
    refused and [string_to_wstring] returns the empty wstring. *)
Theorem string_to_wstring_wrapped (s : string) (w : World) :
  s <> EmptyString ->
  str_size s mod 4294967296 = 0 ->
  utils.string_to_wstring s w
  = ([], add_calls [call_MultiByteToWideChar; call_MultiByteToWideChar] w).
Proof.
  intros Hne Hmod.
  assert (str_empty s = false) as He by (destruct s; [congruence | reflexivity]).
  assert (to_int (str_size s) = 0) as Hz by (unfold to_int; divlia).
  unfold utils.string_to_wstring, bind, MultiByteToWideChar,
    MultiByteToWideChar_answer.
  rewrite He, Hz. unfold ret, record_call, add_calls. simpl.
  rewrite <- app_assoc. reflexivity.
Qed.

Lemma long_string_nonempty (n : nat) : n <> 0%nat -> long_string n <> EmptyString.
Proof. destruct n; [congruence | discriminate]. Qed.

Lemma string_to_wstring_wrapped_witness :
  utils.string_to_wstring (long_string four_gib) (world0 0 10 0 19045)
  = ([], add_calls [call_MultiByteToWideChar; call_MultiByteToWideChar]
           (world0 0 10 0 19045)).
Proof.
  apply (string_to_wstring_wrapped (long_string four_gib)
           (world0 0 10 0 19045)).
  - apply long_string_nonempty. pose proof four_gib_size. lia.
  - rewrite size_long_string, four_gib_size. reflexivity.
Defined.

(** X8. [guid_from_string] hands the guid constructor the characters of
    its argument, widened, when the argument is ASCII of at most [INT_MAX]
    bytes, and returns what the constructor makes of them. *)
Theorem guid_from_string_ascii (guid : Type)
    (guid_of_wstring : wstring -> option guid) (guid_str : string) (w : World) :
  is_ascii (bytes_of_string guid_str) = true ->
  str_size guid_str <= INT_MAX ->
  fst (utils.guid_from_string guid guid_of_wstring guid_str w)
  = guid_of_wstring (L guid_str).
Proof.
  intros Ha Hs. unfold utils.guid_from_string, bind.
  pose proof (string_to_wstring_ascii guid_str w Ha Hs) as Hw.
  destruct (utils.string_to_wstring guid_str w) as [wstr w'].
  simpl in Hw. subst wstr. reflexivity.
Qed.

Lemma guid_from_string_ascii_witness :
  fst (utils.guid_from_string wstring (fun wstr => Some wstr)
         Constants.BLE_CREDENTIAL_SERVICE_UUID (world0 0 10 0 19045))
  = Some (L Constants.BLE_CREDENTIAL_SERVICE_UUID).
Proof.
  apply (guid_from_string_ascii wstring (fun wstr => Some wstr)
           Constants.BLE_CREDENTIAL_SERVICE_UUID (world0 0 10 0 19045)).
  - reflexivity.
  - vm_compute. discriminate.
Defined.

(** ** What the dispatcher calls *)

Lemma wstring_to_string_world (wstr : wstring) (w : World) :
  wstr_empty wstr = false ->
  snd (utils.wstring_to_string wstr w)
  = add_calls [call_WideCharToMultiByte; call_WideCharToMultiByte] w.
Proof.
  intros He. unfold utils.wstring_to_string, bind, WideCharToMultiByte.
  rewrite He.
  destruct (WideCharToMultiByte_answer _ _ _ _ NULL 0 _ _) as [n b].
  destruct (WideCharToMultiByte_answer _ _ _ _ _ n _ _) as [n2 b2].
  unfold ret, record_call, add_calls. simpl.
  rewrite <- app_assoc. reflexivity.
Qed.

Lemma version_stream_nonempty (loc : Locale) (v : OSVERSIONINFOEXW) :
  wstr_empty (str (version_stream loc v)) = false.
Proof. rewrite version_stream_parts. reflexivity. Qed.

Lemma HandleMethodCall_world_exact (this : FlutterP2pConnectionPlugin)
    (call : MethodCall) (result : MethodResult) (w : World) :
  snd (flutter_p2p_connection.HandleMethodCall this call result w)
  = add_calls (dispatch_calls call w) w.
Proof.
  unfold dispatch_calls, is_getPlatformVersion.
  destruct (String.eqb (method_name call) "getPlatformVersion") eqn:Em.
  - destruct (version_status w =? 0) eqn:Es; btop.
    + rewrite HandleMethodCall_success by assumption.
      pose proof (wstring_to_string_world
                    (str (version_stream (global_locale w) (version_info w)))
                    (record_call call_RtlGetVersion w)
                    (version_stream_nonempty _ _)) as Hw.
      destruct (utils.wstring_to_string _ _) as [s w']. simpl in *. subst w'.
      unfold record_call, add_calls. simpl. rewrite <- app_assoc. reflexivity.
    + rewrite HandleMethodCall_failure by assumption. reflexivity.
  - rewrite HandleMethodCall_other by assumption. simpl.
    rewrite add_calls_nil. reflexivity.
Qed.

(** X9. What one dispatch calls: a getPlatformVersion call queries the
    version once and, only when the query succeeds, converts the text (two
    calls of [WideCharToMultiByte]); any other method calls nothing. *)
Theorem dispatch_call_record (this : FlutterP2pConnectionPlugin)
    (call : MethodCall) (result : MethodResult) (w : World) :
  new_calls w (snd (flutter_p2p_connection.HandleMethodCall this call result w))
  = if String.eqb (method_name call) "getPlatformVersion" then
      if version_status w =? 0
      then [call_RtlGetVersion; call_WideCharToMultiByte;
            call_WideCharToMultiByte]
      else [call_RtlGetVersion]
    else [].
Proof.
  rewrite HandleMethodCall_world_exact, new_calls_add_calls. reflexivity.
Qed.

Lemma dispatch_all_world (this : FlutterP2pConnectionPlugin)
    (calls : list MethodCall) :
  forall w,
    snd (dispatch_all this calls w)
    = add_calls (flat_map (fun c => dispatch_calls c w) calls) w.
Proof.
  induction calls as [|c calls IH]; intros w; simpl.
  { rewrite add_calls_nil. reflexivity. }
  unfold bind, dispatch.
  pose proof (HandleMethodCall_world_exact this c [] w) as H1.
  destruct (flutter_p2p_connection.HandleMethodCall this c [] w) as [r w1].
  simpl in H1. subst w1.
  specialize (IH (add_calls (dispatch_calls c w) w)).
  destruct (dispatch_all this calls (add_calls (dispatch_calls c w) w))
    as [rs w2].
  simpl in IH. subst w2. simpl. rewrite add_calls_add_calls. reflexivity.
Qed.

Lemma count_dispatch_calls (c : MethodCall) (w : World) :
  count_call call_RtlGetVersion (dispatch_calls c w)
  = (if is_getPlatformVersion c then 1 else 0)%nat
  /\ count_call call_MultiByteToWideChar (dispatch_calls c w) = 0%nat.
Proof.
  unfold dispatch_calls.
  destruct (is_getPlatformVersion c); [|split; reflexivity].
  destruct (version_status w =? 0); split; reflexivity.
Qed.

(** X10. Over any sequence of dispatches the version is queried exactly
    once per getPlatformVersion call, and [MultiByteToWideChar] is never
    called. *)
Theorem one_version_query_per_call (this : FlutterP2pConnectionPlugin)
    (calls : list MethodCall) (w : World) :
  count_call call_RtlGetVersion
    (new_calls w (snd (dispatch_all this calls w)))
  = List.length (List.filter is_getPlatformVersion calls)
  /\ count_call call_MultiByteToWideChar
       (new_calls w (snd (dispatch_all this calls w))) = 0%nat.
Proof.
  rewrite dispatch_all_world, new_calls_add_calls.
  induction calls as [|c calls [IH1 IH2]]; [split; reflexivity|].
  simpl. rewrite !count_call_app, IH1, IH2.
  destruct (count_dispatch_calls c w) as [-> ->].
  destruct (is_getPlatformVersion c); split; reflexivity.
Qed.

(** ** The version text *)

Lemma version_reply (this : FlutterP2pConnectionPlugin) (call : MethodCall)
    (w : World) :
  is_getPlatformVersion call = true ->
  version_status w = 0 ->
  groups_digits (global_locale w) = false ->
  fst (dispatch this call w)
  = [Success (EncodableString
                (string_of_bytes
                   (str (version_stream (global_locale w)
                           (version_info w)))))].
Proof.
  intros Hm Hs Hloc. unfold dispatch.
  rewrite HandleMethodCall_success by assumption.
  pose proof (wstring_to_string_ascii
                (str (version_stream (global_locale w) (version_info w)))
                (record_call call_RtlGetVersion w)
                (version_stream_ascii _ _ Hloc)
                (version_stream_size _ _ Hloc)) as Hc.
  destruct (utils.wstring_to_string _ _) as [s w'].
  cbn [fst] in Hc. subst s. reflexivity.
Qed.

Lemma is_ascii_bytes (l : list Z) :
  is_ascii l = true -> Forall (fun b => 0 <= b < 256) l.
Proof.
  unfold is_ascii. induction l as [|b l IH]; simpl; intros H; constructor.
  - apply andb_true_iff in H as [Hb _]. unfold in_range in Hb. btop. lia.
  - apply IH. apply andb_true_iff in H as [_ Hl]. exact Hl.
Qed.

(** Two runs of digits that are followed by the same other character are
    equal when the whole texts are. *)
Lemma digits_split (x : Z) (a : list Z) :
  forall a' r r',
    in_range 48 57 x = false ->
    are_digits a = true ->
    are_digits a' = true ->
    a ++ x :: r = a' ++ x :: r' ->
    a = a' /\ r = r'.
Proof.
  unfold are_digits.
  induction a as [|d a IH]; intros a' r r' Hx Ha Ha' Heq.
  - destruct a' as [|d' a']; simpl in *.
    + split; [reflexivity | congruence].
    + injection Heq as -> _. apply andb_true_iff in Ha' as [Hd _]. congruence.
  - destruct a' as [|d' a']; simpl in *.
    + injection Heq as -> _. apply andb_true_iff in Ha as [Hd _]. congruence.
    + injection Heq as -> Heq.
      apply andb_true_iff in Ha as [_ Ha].
      apply andb_true_iff in Ha' as [_ Ha'].
      destruct (IH a' r r' Hx Ha Ha' Heq) as [-> ->]. split; reflexivity.
Qed.

Lemma decimal_injective (n m : Z) :
  0 <= n <= DWORD_MAX -> 0 <= m <= DWORD_MAX ->
  decimal n = decimal m -> n = m.
Proof.
  intros Hn Hm Heq.
  rewrite <- (decimal_value n Hn), <- (decimal_value m Hm), Heq. reflexivity.
Qed.

(** X11. Where the global locale groups no digits, the version text
    determines the version: when two successful getPlatformVersion calls
    give the same reply, the major, minor and build numbers the OS
    reported are the same. *)
Theorem version_reply_injective (this : FlutterP2pConnectionPlugin)
    (call1 call2 : MethodCall) (w1 w2 : World) :
  method_name call1 = "getPlatformVersion" ->
  method_name call2 = "getPlatformVersion" ->
  version_status w1 = 0 ->
  version_status w2 = 0 ->
  groups_digits (global_locale w1) = false ->
  groups_digits (global_locale w2) = false ->
  DWORD_fields (version_info w1) ->
  DWORD_fields (version_info w2) ->
  fst (dispatch this call1 w1) = fst (dispatch this call2 w2) ->
  dwMajorVersion (version_info w1) = dwMajorVersion (version_info w2)
  /\ dwMinorVersion (version_info w1) = dwMinorVersion (version_info w2)
  /\ dwBuildNumber (version_info w1) = dwBuildNumber (version_info w2).
Proof.
  intros Hm1 Hm2 Hs1 Hs2 Hl1 Hl2 (Ha1 & Hb1 & Hc1) (Ha2 & Hb2 & Hc2) Heq.
  rewrite !version_reply in Heq
    by (try assumption; unfold is_getPlatformVersion;
        rewrite ?Hm1, ?Hm2; reflexivity).
  assert (string_of_bytes
            (str (version_stream (global_locale w1) (version_info w1)))
          = string_of_bytes
              (str (version_stream (global_locale w2) (version_info w2))))
    as Hstr by congruence.
  clear Heq. rename Hstr into Heq.
  apply (f_equal bytes_of_string) in Heq.
  rewrite !bytes_of_string_of_bytes in Heq
    by (apply is_ascii_bytes, version_stream_ascii; assumption).
  rewrite !version_stream_plain in Heq by assumption.
  apply app_inv_head in Heq.
  apply digits_split in Heq as [Hmaj Heq];
    [|reflexivity | apply decimal_are_digits ..].
  apply digits_split in Heq as [Hmin Heq];
    [|reflexivity | apply decimal_are_digits ..].
  apply (app_inv_head [66; 117; 105; 108; 100; 32]) in Heq.
  auto using decimal_injective.
Qed.

Lemma version_reply_injective_witness :
  dwMajorVersion (version_info (world0 0 10 0 22631))
  = dwMajorVersion
      (version_info (add_calls [call_RtlGetVersion] (world0 0 10 0 22631)))
  /\ dwMinorVersion (version_info (world0 0 10 0 22631))
     = dwMinorVersion
         (version_info (add_calls [call_RtlGetVersion] (world0 0 10 0 22631)))
  /\ dwBuildNumber (version_info (world0 0 10 0 22631))
     = dwBuildNumber
         (version_info (add_calls [call_RtlGetVersion] (world0 0 10 0 22631))).
Proof.
  apply (version_reply_injective {| registrar_ := 0 |}
           (getPlatformVersion_call EncodableNull)
           (getPlatformVersion_call (EncodableBool true))
           (world0 0 10 0 22631)
           (add_calls [call_RtlGetVersion] (world0 0 10 0 22631))).
  - reflexivity.
  - reflexivity.
  - reflexivity.
  - reflexivity.
  - reflexivity.
  - reflexivity.
  - unfold DWORD_fields, DWORD_MAX. simpl. lia.
  - unfold DWORD_fields, DWORD_MAX. simpl. lia.
  - vm_compute. reflexivity.
Defined.

(** Where the locale groups by thousands with a dot, two different
    versions are written alike: 1 and 234567, 1234 and 567. *)
Example version_reply_ambiguous :
  fst (dispatch {| registrar_ := 0 |} (getPlatformVersion_call EncodableNull)
         (with_locale dot_thousands (world0 0 1 234567 0)))
  = fst (dispatch {| registrar_ := 0 |}
           (getPlatformVersion_call EncodableNull)
           (with_locale dot_thousands (world0 0 1234 567 0))).
Proof. vm_compute. reflexivity. Qed.

(** X12. Where the global locale groups no digits, the text of a
    successful getPlatformVersion reply is pure ASCII and between 19 and
    46 characters long. *)
Theorem version_reply_shape (this : FlutterP2pConnectionPlugin)
    (call : MethodCall) (w : World) :
  method_name call = "getPlatformVersion" ->
  version_status w = 0 ->
  groups_digits (global_locale w) = false ->
  exists s : string,
    fst (dispatch this call w) = [Success (EncodableString s)]
    /\ is_ascii (bytes_of_string s) = true
    /\ 19 <= str_size s <= 46.
Proof.
  intros Hm Hs Hloc.
  exists (string_of_bytes
            (str (version_stream (global_locale w) (version_info w)))).
  split.
  { apply version_reply; [|exact Hs | exact Hloc].
    unfold is_getPlatformVersion. rewrite Hm. reflexivity. }
  rewrite bytes_of_string_of_bytes
    by (apply is_ascii_bytes, version_stream_ascii; exact Hloc).
  split; [apply version_stream_ascii; exact Hloc|].
  rewrite str_size_string_of_bytes.
  pose proof (version_stream_length _ (version_info w) Hloc). sizes.
Qed.

Lemma version_reply_shape_witness :
  exists s : string,
    fst (dispatch {| registrar_ := 0 |}
           (getPlatformVersion_call EncodableNull)
           (world0 0 4294967295 4294967295 4294967295))
    = [Success (EncodableString s)]
    /\ is_ascii (bytes_of_string s) = true
    /\ 19 <= str_size s <= 46.
Proof.
  apply (version_reply_shape {| registrar_ := 0 |}
           (getPlatformVersion_call EncodableNull)
           (world0 0 4294967295 4294967295 4294967295)).
  - reflexivity.
  - reflexivity.
  - reflexivity.
Defined.

(** ** Sequences, registration twice, the exported entry point *)

Lemma dispatch_all_replies (this : FlutterP2pConnectionPlugin)
    (calls : list MethodCall) :
  forall w w0,
    same_env w w0 ->
    fst (dispatch_all this calls w)
    = List.map (fun c => fst (dispatch this c w0)) calls.
Proof.
  induction calls as [|c calls IH]; intros w w0 Hos; [reflexivity|].
  simpl. unfold bind.
  pose proof (HandleMethodCall_same this this c c [] w w0 eq_refl Hos) as Hr.
  pose proof (HandleMethodCall_world_exact this c [] w) as H1.
  unfold dispatch in *.
  destruct (flutter_p2p_connection.HandleMethodCall this c [] w) as [r w1].
  simpl in H1, Hr. subst w1 r.
  specialize (IH (add_calls (dispatch_calls c w) w) w0
                (same_env_trans _ _ _ (same_env_add_calls _ w) Hos)).
  destruct (dispatch_all this calls (add_calls (dispatch_calls c w) w))
    as [rs w2].
  simpl in IH. subst rs. reflexivity.
Qed.

Lemma lifetime_fst (registrar : Z) (calls : list MethodCall) (w : World) :
  fst (lifetime registrar calls w)
  = List.map (fun c => fst (dispatch {| registrar_ := registrar |} c w)) calls.
Proof.
  unfold lifetime, bind,
    flutter_p2p_connection.FlutterP2pConnectionPlugin_ctor,
    flutter_p2p_connection.FlutterP2pConnectionPlugin_dtor,
    init_apartment, uninit_apartment. simpl.
  set (w1 := record_call call_init_apartment
               (set_apartment (apartment w + 1) w)).
  pose proof (dispatch_all_replies {| registrar_ := registrar |} calls
                w1 w (conj eq_refl (conj eq_refl eq_refl))) as Hr.
  destruct (dispatch_all {| registrar_ := registrar |} calls w1) as [rs w2].
  exact Hr.
Qed.

(** X13. Over a plugin lifetime every call is answered as it would be
    alone: the result objects come back in the order of the calls, one per
    call, each holding exactly one reply, the reply that call gets from a
    dispatch on its own. *)
Theorem lifetime_replies (registrar : Z) (calls : list MethodCall)
    (w : World) :
  fst (lifetime registrar calls w)
  = List.map (fun c => fst (dispatch {| registrar_ := registrar |} c w)) calls
  /\ List.length (fst (lifetime registrar calls w)) = List.length calls
  /\ Forall (fun r : MethodResult => List.length r = 1%nat)
       (fst (lifetime registrar calls w)).
Proof.
  rewrite lifetime_fst.
  split; [reflexivity|]. split; [apply length_map|].
  induction calls as [|c calls IH]; simpl; constructor; [|exact IH].
  unfold dispatch.
  destruct (HandleMethodCall_one_reply {| registrar_ := registrar |} c [] w)
    as [o ->]. reflexivity.
Qed.

(** X14. Registering a second time with the same registrar: the registrar
    owns two plugins, the apartment has been initialised twice, and the
    handler table has the names it had after the first registration, the
    channel's name bound to a handler that dispatches to the plugin
    registered last. *)
Theorem registration_twice (registrar : PluginRegistrarWindows) (w : World) :
  let r1 := fst (flutter_p2p_connection.RegisterWithRegistrar registrar w) in
  let w1 := snd (flutter_p2p_connection.RegisterWithRegistrar registrar w) in
  let r2 := fst (flutter_p2p_connection.RegisterWithRegistrar r1 w1) in
  let w2 := snd (flutter_p2p_connection.RegisterWithRegistrar r1 w1) in
  (exists first second,
     plugins r2 = plugins registrar ++ [first; second]
     /\ exists handler,
          messenger r2 !! "flutter_p2p_connection" = Some handler
          /\ forall call result w0,
               handler call result w0
               = flutter_p2p_connection.HandleMethodCall second call result w0)
  /\ apartment w2 = apartment w + 2
  /\ new_calls w w2 = [call_init_apartment; call_init_apartment]
  /\ dom (messenger r2) = dom (messenger r1)
  /\ address r2 = address registrar.
Proof.
  intros r1 w1 r2 w2. subst r1 w1 r2 w2.
  unfold flutter_p2p_connection.RegisterWithRegistrar, bind,
    flutter_p2p_connection.FlutterP2pConnectionPlugin_ctor, init_apartment,
    ret, SetMethodCallHandler, AddPlugin. simpl.
  split.
  { eexists _, _. split; [rewrite <- app_assoc; reflexivity|].
    eexists. split; [apply lookup_insert_eq | reflexivity]. }
  split; [lia|].
  split.
  { unfold new_calls. simpl. rewrite <- app_assoc. simpl.
    induction (os_calls w) as [|c l IH]; [reflexivity | exact IH]. }
  split; [rewrite insert_insert_eq; reflexivity | reflexivity].
Qed.

(** X15. The exported entry point registers with the wrapper kept for the
    reference: afterwards that wrapper owns one plugin more than before
    (exactly one if the reference was new) and has the channel bound; the
    wrappers of all other references are untouched; and the apartment was
    initialised once. *)
Theorem c_api_registration (registrar : Z)
    (registrars : gmap Z PluginRegistrarWindows) (w : World) :
  let before :=
    match registrars !! registrar with
    | Some r => plugins r
    | None => []
    end in
  let registrars' :=
    fst (FlutterP2pConnectionPluginCApiRegisterWithRegistrar
           registrar registrars w) in
  let w' :=
    snd (FlutterP2pConnectionPluginCApiRegisterWithRegistrar
           registrar registrars w) in
  (exists r' plugin,
     registrars' !! registrar = Some r'
     /\ plugins r' = before ++ [plugin]
     /\ exists handler,
          messenger r' !! "flutter_p2p_connection" = Some handler
          /\ forall call result w0,
               handler call result w0
               = flutter_p2p_connection.HandleMethodCall plugin call result w0)
  /\ (forall other,
        other <> registrar -> registrars' !! other = registrars !! other)
  /\ new_calls w w' = [call_init_apartment]
  /\ apartment w' = apartment w + 1.
Proof.
  intros before registrars' w'. subst before registrars' w'.
  unfold FlutterP2pConnectionPluginCApiRegisterWithRegistrar, GetRegistrar.
  destruct (registrars !! registrar) as [r|] eqn:E;
    unfold flutter_p2p_connection.RegisterWithRegistrar, bind,
      flutter_p2p_connection.FlutterP2pConnectionPlugin_ctor, init_apartment,
      ret, SetMethodCallHandler, AddPlugin; simpl.
  - split.
    { eexists _, _. split; [apply lookup_insert_eq|]. simpl.
      split; [reflexivity|].
      eexists. split; [apply lookup_insert_eq | reflexivity]. }
    split.
    { intros other Hne. apply lookup_insert_ne. congruence. }
    split; [|reflexivity].
    unfold new_calls. simpl.
    induction (os_calls w) as [|c l IH]; [reflexivity | exact IH].
  - split.
    { eexists _, _. split; [apply lookup_insert_eq|]. simpl.
      split; [reflexivity|].
      eexists. split; [apply lookup_insert_eq | reflexivity]. }
    split.
    { intros other Hne. rewrite !lookup_insert_ne by congruence. reflexivity. }
    split; [|reflexivity].
    unfold new_calls. simpl.
    induction (os_calls w) as [|c l IH]; [reflexivity | exact IH].
Qed.
